(** * ipcalc.py: an IPv4 subnet calculator

    A shallow embedding of [Calcular_IPv4/ipcalc.py] and of the part of
    Python's [ipaddress] module (CPython 3.11) that the script calls.

    - Python integers are unbounded, so they are [Z] and the bit operations
      are [Z.land], [Z.lor], [Z.lxor], [Z.shiftl], [Z.shiftr], [Z.lnot].
    - A Python [str] is a sequence of code points.  It is embedded as a
      [string]; a character is a code point in [0, 255].
    - Exceptions are the [Raise] branch of [result].
    - An [IPv4Address] object is the integer it holds in [_ip]; the range
      check of its constructor is [IPv4Address_int]. *)

From Stdlib Require Import ZArith List String Ascii Bool Lia DecimalString.
Import ListNotations.

Local Open Scope string_scope.
Local Open Scope Z_scope.

(** ** Results and exceptions *)

Inductive result (E A : Type) : Type :=
| Ok (a : A)
| Raise (e : E).

Arguments Ok {E A} a.
Arguments Raise {E A} e.

Definition bind {E A B} (c : result E A) (k : A -> result E B) : result E B :=
  match c with
  | Ok a => k a
  | Raise e => Raise e
  end.

Notation "x <- c ;; k" := (bind c (fun x => k))
  (at level 61, c at next level, right associativity).
Notation "' pat <- c ;; k" := (bind c (fun x => match x with pat => k end))
  (at level 61, pat pattern, c at next level, right associativity).

(** [try: c  except <classes>: h]: the handler runs when the class of the
    exception is one of the classes named. *)
Definition try_except {E A} (c : result E A) (catches : E -> bool)
    (h : result E A) : result E A :=
  match c with
  | Ok a => Ok a
  | Raise e => if catches e then h else Raise e
  end.

(** The exception classes that occur.  [AddressValueError] and
    [NetmaskValueError] are subclasses of [ValueError]; all are subclasses
    of [Exception]. *)
Inductive kind : Type :=
| ValueError
| AddressValueError
| NetmaskValueError
| OverflowError
| IndexError.

Definition is_ValueError (k : kind) : bool :=
  match k with
  | ValueError | AddressValueError | NetmaskValueError => true
  | _ => false
  end.

(** An exception with its text, [str(e)]. *)
Record exn : Type := Exn { exn_kind : kind; exn_msg : string }.

(** Inside a [try] block whose handler throws the text away only the class
    of the exception is kept. *)
Definition forget {A} (c : result exn A) : result kind A :=
  match c with
  | Ok a => Ok a
  | Raise e => Raise (exn_kind e)
  end.

(** ** Python built-ins *)

Module Py.

(** [str(n)] for an integer. *)
Definition str_int (n : Z) : string := NilZero.string_of_int (Z.to_int n).

Definition ord (c : ascii) : Z := Z.of_N (N_of_ascii c).

(** Decodes the two-byte sequences of a source literal, so that the
    accented letters of the script's messages are single code points. *)
Fixpoint u (s : string) : string :=
  match s with
  | "" => ""
  | String "195" (String c r) => String (ascii_of_N (N_of_ascii c + 64)) (u r)
  | String "194" (String c r) => String c (u r)
  | String c r => String c (u r)
  end.

(** [c.isascii() and c.isdigit()] for one character: '0'..'9'. *)
Definition is_ascii_digit (c : ascii) : bool := (48 <=? ord c) && (ord c <=? 57).

Fixpoint all_ascii_digits (s : string) : bool :=
  match s with
  | "" => true
  | String c r => is_ascii_digit c && all_ascii_digits r
  end.

(** [s.isascii() and s.isdigit()]: [isdigit] is false on the empty string. *)
Definition isascii_isdigit (s : string) : bool :=
  match s with
  | "" => false
  | _ => all_ascii_digits s
  end.

(** [c.isspace()] for a code point below 256. *)
Definition isspace (c : ascii) : bool :=
  let n := ord c in
  ((9 <=? n) && (n <=? 13)) || ((28 <=? n) && (n <=? 32))
  || (n =? 133) || (n =? 160).

Fixpoint lstrip (s : string) : string :=
  match s with
  | "" => ""
  | String c r => if isspace c then lstrip r else s
  end.

Fixpoint rstrip (s : string) : string :=
  match s with
  | "" => ""
  | String c r =>
      match rstrip r with
      | "" => if isspace c then "" else String c ""
      | r' => String c r'
      end
  end.

(** [s.strip()] *)
Definition strip (s : string) : string := rstrip (lstrip s).

(** [c in s] for a one-character [c]. *)
Fixpoint contains (c : ascii) (s : string) : bool :=
  match s with
  | "" => false
  | String d r => Ascii.eqb d c || contains c r
  end.

(** [s.startswith(c)] for a one-character [c]. *)
Definition startswith (c : ascii) (s : string) : bool :=
  match s with
  | "" => false
  | String d _ => Ascii.eqb d c
  end.

(** [s.split(sep)] for a one-character separator. *)
Fixpoint split (sep : ascii) (s : string) : list string :=
  match s with
  | "" => [""]
  | String c r =>
      if Ascii.eqb c sep then "" :: split sep r
      else match split sep r with
           | [] => [String c ""]
           | h :: t => String c h :: t
           end
  end.

(** [sep.join(l)] *)
Fixpoint join (sep : string) (l : list string) : string :=
  match l with
  | [] => ""
  | [x] => x
  | x :: r => x ++ sep ++ join sep r
  end.

Definition digit_val (c : ascii) : Z := ord c - 48.

Fixpoint int_digits (acc : Z) (s : string) : Z :=
  match s with
  | "" => acc
  | String c r => int_digits (10 * acc + digit_val c) r
  end.

(** The default of [sys.get_int_max_str_digits()]. *)
Definition int_max_str_digits : Z := 4300.

(** [int(s)] for a string of ASCII digits; longer strings than the limit
    raise [ValueError]. *)
Definition int_str (s : string) : result kind Z :=
  if int_max_str_digits <? Z.of_nat (String.length s) then Raise ValueError
  else Ok (int_digits 0 s).

(** [n.bit_length()] for [0 <= n]. *)
Definition bit_length (n : Z) : Z := if n =? 0 then 0 else Z.log2 n + 1.

(** [n.to_bytes(4, 'big')] *)
Definition to_bytes4 (n : Z) : result exn (list Z) :=
  if n <? 0 then Raise (Exn OverflowError "can't convert negative int to unsigned")
  else if 2 ^ 32 <=? n then Raise (Exn OverflowError "int too big to convert")
  else Ok [Z.land (Z.shiftr n 24) 255; Z.land (Z.shiftr n 16) 255;
           Z.land (Z.shiftr n 8) 255; Z.land n 255].

(** [int.from_bytes(l, 'big')] *)
Definition from_bytes (l : list Z) : Z :=
  fold_left (fun acc b => Z.lor (Z.shiftl acc 8) b) l 0.

(** [range(lo, hi)] *)
Definition range (lo hi : Z) : list Z :=
  map (fun i => lo + Z.of_nat i) (seq 0 (Z.to_nat (hi - lo))).

(** [l[i]], negative indices counting from the end. *)
Definition getitem {A} (l : list A) (i : Z) : result exn A :=
  let n := Z.of_nat (List.length l) in
  let j := if i <? 0 then i + n else i in
  if (j <? 0) || (n <=? j) then Raise (Exn IndexError "list index out of range")
  else match nth_error l (Z.to_nat j) with
       | Some x => Ok x
       | None => Raise (Exn IndexError "list index out of range")
       end.

(** [[f(x) for x in l]], stopping at the first exception. *)
Fixpoint mapM {E A B} (f : A -> result E B) (l : list A) : result E (list B) :=
  match l with
  | [] => Ok []
  | x :: r => y <- f x ;; ys <- mapM f r ;; Ok (y :: ys)
  end.

End Py.

(** ** The [ipaddress] module, IPv4 part *)

Module ipaddress.
Import Py.

Definition _ALL_ONES : Z := 2 ^ 32 - 1.
Definition _max_prefixlen : Z := 32.

Definition is_AddressValueError (k : kind) : bool :=
  match k with AddressValueError => true | _ => false end.

Definition is_NetmaskValueError (k : kind) : bool :=
  match k with NetmaskValueError => true | _ => false end.

(** The functions that parse text raise exceptions whose text holds the
    [repr] of their input.  Every call the script makes to them sits in a
    [try] block that replaces the exception, so they carry the class only. *)

Definition _split_optional_netmask (address : string) : result kind (list string) :=
  let addr := split "/" address in
  if 2 <? Z.of_nat (List.length addr) then Raise AddressValueError
  else Ok addr.

Definition _count_righthand_zero_bits (number bits : Z) : Z :=
  if number =? 0 then bits
  else Z.min bits (bit_length (Z.land (Z.lnot number) (number - 1))).

Definition _check_int_address (address : Z) : result exn unit :=
  if address <? 0 then
    Raise (Exn AddressValueError
             (str_int address ++ " (< 0) is not permitted as an IPv4 address"))
  else if _ALL_ONES <? address then
    Raise (Exn AddressValueError
             (str_int address ++ " (>= 2**32) is not permitted as an IPv4 address"))
  else Ok tt.

Definition _ip_int_from_prefix (prefixlen : Z) : Z :=
  Z.lxor _ALL_ONES (Z.shiftr _ALL_ONES prefixlen).

Definition _prefix_from_ip_int (ip_int : Z) : result kind Z :=
  let trailing_zeroes := _count_righthand_zero_bits ip_int _max_prefixlen in
  let prefixlen := _max_prefixlen - trailing_zeroes in
  let leading_ones := Z.shiftr ip_int trailing_zeroes in
  let all_ones := Z.shiftl 1 prefixlen - 1 in
  if negb (leading_ones =? all_ones) then
    details <- forget (to_bytes4 ip_int) ;;
    Raise ValueError
  else Ok prefixlen.

Definition _report_invalid_netmask {A} : result kind A := Raise NetmaskValueError.

Definition _prefix_from_prefix_string (prefixlen_str : string) : result kind Z :=
  if negb (isascii_isdigit prefixlen_str) then _report_invalid_netmask
  else
    prefixlen <- try_except (int_str prefixlen_str) is_ValueError
                   _report_invalid_netmask ;;
    if negb ((0 <=? prefixlen) && (prefixlen <=? _max_prefixlen)) then
      _report_invalid_netmask
    else Ok prefixlen.

Definition _parse_octet (octet_str : string) : result kind Z :=
  if (octet_str =? "")%string then Raise ValueError
  else if negb (isascii_isdigit octet_str) then Raise ValueError
  else if 3 <? Z.of_nat (String.length octet_str) then Raise ValueError
  else if negb (octet_str =? "0")%string && startswith "0" octet_str then
    Raise ValueError
  else
    octet_int <- int_str octet_str ;;
    if 255 <? octet_int then Raise ValueError else Ok octet_int.

Definition _ip_int_from_string (ip_str : string) : result kind Z :=
  if (ip_str =? "")%string then Raise AddressValueError
  else
    let octets := split "." ip_str in
    if negb (Z.of_nat (List.length octets) =? 4) then Raise AddressValueError
    else
      try_except (bs <- mapM _parse_octet octets ;; Ok (from_bytes bs))
        is_ValueError (Raise AddressValueError).

Definition _string_from_ip_int (ip_int : Z) : result exn string :=
  bs <- to_bytes4 ip_int ;;
  Ok (join "." (map str_int bs)).

Definition _prefix_from_ip_string (ip_str : string) : result kind Z :=
  ip_int <- try_except (_ip_int_from_string ip_str) is_AddressValueError
              _report_invalid_netmask ;;
  match _prefix_from_ip_int ip_int with
  | Ok prefixlen => Ok prefixlen
  | Raise k =>
      if is_ValueError k then
        let ip_int := Z.lxor ip_int _ALL_ONES in
        try_except (_prefix_from_ip_int ip_int) is_ValueError
          _report_invalid_netmask
      else Raise k
  end.

(** The second component of an [(addr, mask)] pair: the integer
    [_max_prefixlen] when the text has no '/', the text after it otherwise. *)
Inductive mask : Type :=
| MaskInt (n : Z)
| MaskStr (s : string).

(** [split] never returns an empty list and [_split_optional_netmask]
    leaves at most two pieces; the other two branches are the [IndexError]
    of [address[0]] and the failing unpacking of the caller. *)
Definition _split_addr_prefix (address : string) : result kind (string * mask) :=
  address <- _split_optional_netmask address ;;
  match address with
  | [addr; m] => Ok (addr, MaskStr m)
  | [addr] => Ok (addr, MaskInt _max_prefixlen)
  | [] => Raise IndexError
  | _ => Raise ValueError
  end.

(** [IPv4Address(address)] for an integer. *)
Definition IPv4Address_int (address : Z) : result exn Z :=
  _ <- _check_int_address address ;;
  Ok address.

(** [IPv4Address(address)] for a string. *)
Definition IPv4Address_str (address : string) : result kind Z :=
  if contains "/" address then Raise AddressValueError
  else _ip_int_from_string address.

(** [_netmask_cache] memoises this function and is left out. *)
Definition _make_netmask (arg : mask) : result kind (Z * Z) :=
  prefixlen <-
    match arg with
    | MaskInt prefixlen =>
        if negb ((0 <=? prefixlen) && (prefixlen <=? _max_prefixlen)) then
          _report_invalid_netmask
        else Ok prefixlen
    | MaskStr arg =>
        try_except (_prefix_from_prefix_string arg) is_NetmaskValueError
          (_prefix_from_ip_string arg)
    end ;;
  netmask <- forget (IPv4Address_int (_ip_int_from_prefix prefixlen)) ;;
  Ok (netmask, prefixlen).

Record IPv4Network : Type := {
  network_address : Z;
  netmask : Z;
  _prefixlen : Z
}.

(** [IPv4Network((addr, mask), strict)] *)
Definition IPv4Network_pair (addr : string) (m : mask) (strict : bool)
    : result kind IPv4Network :=
  network_address <- IPv4Address_str addr ;;
  ' (netmask, prefixlen) <- _make_netmask m ;;
  let packed := network_address in
  network_address <-
    (if negb (Z.land packed netmask =? packed) then
       if strict then Raise ValueError
       else forget (IPv4Address_int (Z.land packed netmask))
     else Ok network_address) ;;
  Ok {| network_address := network_address;
        netmask := netmask;
        _prefixlen := prefixlen |}.

(** [IPv4Network(address, strict)] for a string. *)
Definition IPv4Network_str (address : string) (strict : bool)
    : result kind IPv4Network :=
  ' (addr, m) <- _split_addr_prefix address ;;
  IPv4Network_pair addr m strict.

Definition prefixlen (n : IPv4Network) : Z := _prefixlen n.

Definition hostmask (n : IPv4Network) : result exn Z :=
  IPv4Address_int (Z.lxor (netmask n) _ALL_ONES).

Definition broadcast_address (n : IPv4Network) : result exn Z :=
  hm <- hostmask n ;;
  IPv4Address_int (Z.lor (network_address n) hm).

Definition num_addresses (n : IPv4Network) : result exn Z :=
  broadcast <- broadcast_address n ;;
  Ok (broadcast - network_address n + 1).

Definition __iter__ (n : IPv4Network) : result exn (list Z) :=
  broadcast <- broadcast_address n ;;
  mapM IPv4Address_int (range (network_address n) (broadcast + 1)).

(** [hosts()]; the constructor replaces it for /31 by [__iter__] and for
    /32 by [lambda: [IPv4Address(addr)]], where [addr] is the text the
    network was built from: a /32 netmask keeps every bit, so that address
    is the network address. *)
Definition hosts (n : IPv4Network) : result exn (list Z) :=
  if _prefixlen n =? _max_prefixlen - 1 then __iter__ n
  else if _prefixlen n =? _max_prefixlen then
    a <- IPv4Address_int (network_address n) ;; Ok [a]
  else
    broadcast <- broadcast_address n ;;
    mapM IPv4Address_int (range (network_address n + 1) broadcast).

Record IPv4Interface : Type := {
  _ip : Z;
  network : IPv4Network
}.

(** [IPv4Interface(address)] for a string. *)
Definition IPv4Interface_str (address : string) : result kind IPv4Interface :=
  ' (addr, m) <- _split_addr_prefix address ;;
  ip <- IPv4Address_str addr ;;
  network <- IPv4Network_pair addr m false ;;
  Ok {| _ip := ip; network := network |}.

(** The property [ip] of an interface. *)
Definition ip (iface : IPv4Interface) : result exn Z := IPv4Address_int (_ip iface).

End ipaddress.

(** ** The script *)

Module ipcalc.
Import Py.

(** [except Exception as e: raise ValueError(msg) from e] *)
Definition except_Exception {E A} (c : result E A) (msg : string) : result exn A :=
  match c with
  | Ok a => Ok a
  | Raise _ => Raise (Exn ValueError msg)
  end.

Definition parse_input (argv : list string) : result exn string :=
  match argv with
  | [arg0] =>
      let s := strip arg0 in
      if contains "/" s then Ok s
      else Raise (Exn ValueError
                    (u "Formato inválido. Use IP/CIDR ou 'IP MASCARA'."))
  | [arg0; arg1] =>
      let ip := strip arg0 in
      let mask := strip arg1 in
      if startswith "/" mask then Ok (ip ++ mask)
      else
        except_Exception
          (net <- ipaddress.IPv4Network_str ("0.0.0.0/" ++ mask) true ;;
           let prefix := ipaddress.prefixlen net in
           Ok (ip ++ "/" ++ str_int prefix))
          (u "Máscara inválida: " ++ mask)
  | _ =>
      Raise (Exn ValueError
               "Use: script.py <IP/CIDR>  OU  script.py <IP> <MASCARA>")
  end.

(** The dictionary that [summarize] returns. *)
Record summary : Type := {
  input_ip : string;
  network_address : string;
  netmask : string;
  prefix : string;
  broadcast : string;
  total_addresses : Z;
  num_usable : Z;
  first_usable : string;
  last_usable : string;
  gateway_suggestion : string;
  wildcard : string
}.

(** [str(a)] for an [IPv4Address]. *)
Definition str_addr (a : Z) : result exn string := ipaddress._string_from_ip_int a.

(** [str(a) if a else "N/A"]: an address object is always true, [None] is
    false. *)
Definition str_or_NA (a : option Z) : result exn string :=
  match a with
  | Some x => str_addr x
  | None => Ok "N/A"
  end.

Definition summarize (target : string) : result exn summary :=
  iface <- except_Exception (ipaddress.IPv4Interface_str target)
             (u "Entrada inválida: " ++ target) ;;
  ip <- ipaddress.ip iface ;;
  let network := ipaddress.network iface in
  let netmask := ipaddress.netmask network in
  let prefix := ipaddress.prefixlen network in
  broadcast <- ipaddress.broadcast_address network ;;
  total_addrs <- ipaddress.num_addresses network ;;
  ' (num_usable, first_usable, last_usable, gateway) <-
    (if 31 <=? prefix then Ok (0, None, None, None)
     else
       hosts_list <- ipaddress.hosts network ;;
       let num_usable := Z.of_nat (List.length hosts_list) in
       if 0 <? num_usable then
         first_usable <- getitem hosts_list 0 ;;
         last_usable <- getitem hosts_list (-1) ;;
         let gateway := first_usable in
         Ok (num_usable, Some first_usable, Some last_usable, Some gateway)
       else Ok (num_usable, None, None, None)) ;;
  let wildcard_int := Z.lxor netmask 0xFFFFFFFF in
  wildcard <- ipaddress.IPv4Address_int wildcard_int ;;
  s_ip <- str_addr ip ;;
  s_network <- str_addr (ipaddress.network_address network) ;;
  s_netmask <- str_addr netmask ;;
  s_broadcast <- str_addr broadcast ;;
  s_first <- str_or_NA first_usable ;;
  s_last <- str_or_NA last_usable ;;
  s_gateway <- str_or_NA gateway ;;
  s_wildcard <- str_addr wildcard ;;
  Ok {| input_ip := s_ip;
        network_address := s_network;
        netmask := s_netmask;
        prefix := "/" ++ str_int prefix;
        broadcast := s_broadcast;
        total_addresses := total_addrs;
        num_usable := num_usable;
        first_usable := s_first;
        last_usable := s_last;
        gateway_suggestion := s_gateway;
        wildcard := s_wildcard |}.

(** The lines that [pretty_print] writes to standard output. *)
Definition pretty_print (d : summary) : list string :=
  [ "Input IP:           " ++ input_ip d;
    "Network:            " ++ network_address d ++ " " ++ prefix d;
    "Netmask:            " ++ netmask d;
    "Wildcard:           " ++ wildcard d;
    "Broadcast:          " ++ broadcast d;
    u "Total endereços:    " ++ str_int (total_addresses d);
    u "Hosts utilizáveis:  " ++ str_int (num_usable d);
    "Primeiro host:      " ++ first_usable d;
    u "Último host:        " ++ last_usable d;
    "Gateway sugerido:   " ++ gateway_suggestion d ].

(** What a run of the script does: the lines it prints and its exit code. *)
Record outcome : Type := Exit { stdout : list string; exit_code : Z }.

(** The [__main__] block; [sys_argv] starts with the name of the script.
    [sys.exit(1)] raises [SystemExit], which [except Exception] lets
    through. *)
Definition main (sys_argv : list string) : outcome :=
  if (List.length sys_argv <=? 1)%nat then
    Exit [ "Uso: ipcalc.py <IP/CIDR>  OU  ipcalc.py <IP> <MASCARA>";
           "Exemplos: ipcalc.py 192.168.1.10/24";
           "          ipcalc.py 10.0.0.2 255.255.255.252" ] 1
  else
    let args := tl sys_argv in
    match (target <- parse_input args ;; out <- summarize target ;; Ok (pretty_print out)) with
    | Ok lines => Exit lines 0
    | Raise e => Exit [ "Erro: " ++ exn_msg e ] 2
    end.

End ipcalc.

(** ** Reference definitions *)

Import Py.

(** An interface built from text: the address is a 32-bit value, the
    prefix length is in [0, 32], the netmask is the one of the prefix
    length and the network address is the address under the netmask. *)
Definition well_formed (iface : ipaddress.IPv4Interface) : Prop :=
  let n := ipaddress.network iface in
  0 <= ipaddress._ip iface < 2 ^ 32 /\
  0 <= ipaddress._prefixlen n <= 32 /\
  ipaddress.netmask n = ipaddress._ip_int_from_prefix (ipaddress._prefixlen n) /\
  ipaddress.network_address n
  = Z.land (ipaddress._ip iface) (ipaddress.netmask n).

(** The four octets of a 32-bit value, most significant first. *)
Definition octets (a : Z) : list Z :=
  [Z.land (Z.shiftr a 24) 255; Z.land (Z.shiftr a 16) 255;
   Z.land (Z.shiftr a 8) 255; Z.land a 255].

(** Dotted-decimal notation of a 32-bit value. *)
Definition dotted (a : Z) : string := join "." (map str_int (octets a)).

(** The summary of section 4.2 of the specification, by the direct
    formulas: from the address [a] and the prefix length [p], with no
    enumeration of hosts. *)
Definition subnet_summary (a p : Z) : ipcalc.summary :=
  let netmask := if p =? 0 then 0 else Z.land (Z.shiftl 0xFFFFFFFF (32 - p)) 0xFFFFFFFF in
  let wildcard := Z.lxor netmask 0xFFFFFFFF in
  let network_address := Z.land a netmask in
  let broadcast_address := Z.lor network_address wildcard in
  let total_addresses := Z.shiftl 1 (32 - p) in
  let absent := "N/A" in
  {| ipcalc.input_ip := dotted a;
     ipcalc.network_address := dotted network_address;
     ipcalc.netmask := dotted netmask;
     ipcalc.prefix := "/" ++ str_int p;
     ipcalc.broadcast := dotted broadcast_address;
     ipcalc.total_addresses := total_addresses;
     ipcalc.num_usable := if 31 <=? p then 0 else total_addresses - 2;
     ipcalc.first_usable :=
       if 31 <=? p then absent else dotted (network_address + 1);
     ipcalc.last_usable :=
       if 31 <=? p then absent else dotted (broadcast_address - 1);
     ipcalc.gateway_suggestion :=
       if 31 <=? p then absent else dotted (network_address + 1);
     ipcalc.wildcard := dotted wildcard |}.

(** The 32-bit value whose bits are [n] ones followed by [32 - n] zeros,
    most significant bit first: the bit pattern of a netmask. *)
Definition ones_then_zeros (n : Z) : Z := 2 ^ 32 - 2 ^ (32 - n).

(** The 32-bit value whose bits are [n] zeros followed by [32 - n] ones:
    the bit pattern of a hostmask. *)
Definition zeros_then_ones (n : Z) : Z := 2 ^ (32 - n) - 1.

(** The mask normalizer of section 4.1 of the specification, the way
    [parse_input] runs it:
    [ipaddress.IPv4Network(f"0.0.0.0/{mask}").prefixlen]. *)
Definition normalize_mask (mask : string) : result kind Z :=
  net <- ipaddress.IPv4Network_str ("0.0.0.0/" ++ mask) true ;;
  Ok (ipaddress.prefixlen net).

(** Some character of the string is white space. *)
Fixpoint has_space (s : string) : bool :=
  match s with
  | "" => false
  | String c r => isspace c || has_space r
  end.

(** The number of zero bits at the low end of a positive number. *)
Fixpoint pos_ctz (q : positive) : Z :=
  match q with
  | xO q' => 1 + pos_ctz q'
  | _ => 0
  end.

(** The summary [r] with another text in [input_ip]. *)
Definition with_input_ip (s : string) (r : ipcalc.summary) : ipcalc.summary :=
  {| ipcalc.input_ip := s;
     ipcalc.network_address := ipcalc.network_address r;
     ipcalc.netmask := ipcalc.netmask r;
     ipcalc.prefix := ipcalc.prefix r;
     ipcalc.broadcast := ipcalc.broadcast r;
     ipcalc.total_addresses := ipcalc.total_addresses r;
     ipcalc.num_usable := ipcalc.num_usable r;
     ipcalc.first_usable := ipcalc.first_usable r;
     ipcalc.last_usable := ipcalc.last_usable r;
     ipcalc.gateway_suggestion := ipcalc.gateway_suggestion r;
     ipcalc.wildcard := ipcalc.wildcard r |}.

(** ** Valid interface texts *)

(** A decimal octet: one to three ASCII digits, no leading zero unless it
    is "0", value at most 255. *)
Definition valid_octet (s : string) : bool :=
  isascii_isdigit s
  && (Z.of_nat (String.length s) <=? 3)
  && ((s =? "0")%string || negb (startswith "0" s))
  && (int_digits 0 s <=? 255).

(** The value of a dotted quad: four valid octets separated by '.'. *)
Definition quad_value (s : string) : option Z :=
  match split "." s with
  | [o1; o2; o3; o4] =>
      if valid_octet o1 && valid_octet o2 && valid_octet o3 && valid_octet o4
      then Some (((int_digits 0 o1 * 256 + int_digits 0 o2) * 256
                  + int_digits 0 o3) * 256 + int_digits 0 o4)
      else None
  | _ => None
  end.

(** A decimal prefix length: ASCII digits, at most [int_max_str_digits] of
    them, value at most 32. *)
Definition valid_prefix (s : string) : bool :=
  isascii_isdigit s
  && (Z.of_nat (String.length s) <=? int_max_str_digits)
  && (int_digits 0 s <=? 32).

Definition prefix_lengths : list Z := map Z.of_nat (seq 0 33).

(** The prefix length of a mask value: [n] when the value is [n] ones
    followed by zeros and else [n] when it is [n] zeros followed by ones. *)
Definition pattern_prefix (v : Z) : option Z :=
  match find (fun n => v =? ones_then_zeros n) prefix_lengths with
  | Some n => Some n
  | None => find (fun n => v =? zeros_then_ones n) prefix_lengths
  end.

(** The prefix length that the text after the '/' stands for: a decimal
    prefix length, or a dotted quad with the value of a netmask or of a
    hostmask. *)
Definition mask_prefix (m : string) : option Z :=
  if valid_prefix m then Some (int_digits 0 m)
  else match quad_value m with
       | Some v => pattern_prefix v
       | None => None
       end.

(** The address and the prefix length that a text stands for, when it is a
    valid interface specification: a dotted quad alone, which stands for a
    /32, or a dotted quad, one '/' and a prefix or mask part. *)
Definition interface_of (target : string) : option (Z * Z) :=
  match split "/" target with
  | [addr] =>
      match quad_value addr with
      | Some a => Some (a, 32)
      | None => None
      end
  | [addr; m] =>
      match quad_value addr, mask_prefix m with
      | Some a, Some p => Some (a, p)
      | _, _ => None
      end
  | _ => None
  end.

(** The ten ASCII digits and the strings of [n] of them. *)
Definition digit_chars : list ascii :=
  ["0"; "1"; "2"; "3"; "4"; "5"; "6"; "7"; "8"; "9"]%char.

Fixpoint digit_strings (n : nat) : list string :=
  match n with
  | O => [""]
  | S k => flat_map (fun c => map (String c) (digit_strings k)) digit_chars
  end.

(** ** Sample inputs *)

(** The interface of ["192.168.1.10/24"]. *)
Definition iface_24 : ipaddress.IPv4Interface :=
  {| ipaddress._ip := 3232235786;
     ipaddress.network :=
       {| ipaddress.network_address := 3232235776;
          ipaddress.netmask := 4294967040;
          ipaddress._prefixlen := 24 |} |}.

(** The interface of ["192.168.1.1/31"]. *)
Definition iface_31 : ipaddress.IPv4Interface :=
  {| ipaddress._ip := 3232235777;
     ipaddress.network :=
       {| ipaddress.network_address := 3232235776;
          ipaddress.netmask := 4294967294;
          ipaddress._prefixlen := 31 |} |}.

(** The interface of ["10.1.2.3/0"]. *)
Definition iface_0 : ipaddress.IPv4Interface :=
  {| ipaddress._ip := 167838211;
     ipaddress.network :=
       {| ipaddress.network_address := 0;
          ipaddress.netmask := 0;
          ipaddress._prefixlen := 0 |} |}.

(** * Properties *)

(** ** Finite checks *)

(** A boolean property that holds on [0 .. n-1] by evaluation holds for
    every integer of that interval. *)
Lemma forall_below (f : Z -> bool) (n : nat) :
  forallb f (map Z.of_nat (seq 0 n)) = true ->
  forall z, 0 <= z < Z.of_nat n -> f z = true.
Proof.
  intros H z Hz.
  rewrite forallb_forall in H. apply H.
  rewrite in_map_iff. exists (Z.to_nat z). split; [lia|].
  apply in_seq. lia.
Qed.

(** ** Masks as numbers *)

Section Masks.

Import ipaddress.

Lemma ip_int_from_prefix_eq p :
  0 <= p <= 32 -> _ip_int_from_prefix p = 2 ^ 32 - 2 ^ (32 - p).
Proof.
  intros Hp.
  apply Z.eqb_eq.
  apply (forall_below (fun p => _ip_int_from_prefix p =? 2 ^ 32 - 2 ^ (32 - p)) 33);
    [vm_compute; reflexivity | lia].
Qed.

Lemma hostmask_eq p :
  0 <= p <= 32 -> Z.lxor (_ip_int_from_prefix p) _ALL_ONES = 2 ^ (32 - p) - 1.
Proof.
  intros Hp.
  apply Z.eqb_eq.
  apply (forall_below
           (fun p => Z.lxor (_ip_int_from_prefix p) _ALL_ONES =? 2 ^ (32 - p) - 1) 33);
    [vm_compute; reflexivity | lia].
Qed.

Lemma netmask_hostmask_disjoint p :
  0 <= p <= 32 ->
  Z.land (_ip_int_from_prefix p) (Z.lxor (_ip_int_from_prefix p) _ALL_ONES) = 0.
Proof.
  intros Hp.
  apply Z.eqb_eq.
  apply (forall_below
           (fun p => Z.land (_ip_int_from_prefix p)
                       (Z.lxor (_ip_int_from_prefix p) _ALL_ONES) =? 0) 33);
    [vm_compute; reflexivity | lia].
Qed.

Lemma netmask_hostmask_cover p :
  0 <= p <= 32 ->
  Z.lor (_ip_int_from_prefix p) (Z.lxor (_ip_int_from_prefix p) _ALL_ONES)
  = Z.ones 32.
Proof.
  intros Hp.
  apply Z.eqb_eq.
  apply (forall_below
           (fun p => Z.lor (_ip_int_from_prefix p)
                       (Z.lxor (_ip_int_from_prefix p) _ALL_ONES) =? Z.ones 32) 33);
    [vm_compute; reflexivity | lia].
Qed.

(** Two numbers with no common bit add up to their bitwise or. *)
Lemma lor_disjoint_add a b : Z.land a b = 0 -> Z.lor a b = a + b.
Proof.
  intros H. rewrite <- Z.lxor_lor by exact H.
  symmetry. apply Z.add_nocarry_lxor. exact H.
Qed.

Lemma land_land_disjoint a m h :
  Z.land m h = 0 -> Z.land (Z.land a m) h = 0.
Proof.
  intros H. rewrite <- Z.land_assoc, H. apply Z.land_0_r.
Qed.

(** The network address clears the host bits: it is the address rounded
    down to a multiple of the block size. *)
Lemma land_netmask a p :
  0 <= a < 2 ^ 32 -> 0 <= p <= 32 ->
  Z.land a (_ip_int_from_prefix p) = a - a mod 2 ^ (32 - p).
Proof.
  intros Ha Hp.
  set (nm := _ip_int_from_prefix p).
  set (hm := Z.lxor nm _ALL_ONES).
  assert (Hd : Z.land nm hm = 0) by (apply netmask_hostmask_disjoint; exact Hp).
  assert (Hc : Z.lor nm hm = Z.ones 32) by (apply netmask_hostmask_cover; exact Hp).
  assert (Hh : Z.land a hm = a mod 2 ^ (32 - p)).
  { unfold hm, nm. rewrite hostmask_eq by exact Hp.
    replace (2 ^ (32 - p) - 1) with (Z.ones (32 - p))
      by (rewrite Z.ones_equiv; lia).
    apply Z.land_ones. lia. }
  assert (Hsum : Z.lor (Z.land a nm) (Z.land a hm) = a).
  { rewrite <- Z.land_lor_distr_r, Hc, Z.land_ones by lia.
    apply Z.mod_small. exact Ha. }
  rewrite lor_disjoint_add in Hsum.
  - lia.
  - rewrite (Z.land_comm a hm), Z.land_assoc.
    rewrite (land_land_disjoint a nm hm Hd). apply Z.land_0_l.
Qed.

(** The broadcast address sets the host bits of the network address. *)
Lemma lor_hostmask a p :
  0 <= a < 2 ^ 32 -> 0 <= p <= 32 ->
  Z.lor (Z.land a (_ip_int_from_prefix p))
        (Z.lxor (_ip_int_from_prefix p) _ALL_ONES)
  = a - a mod 2 ^ (32 - p) + 2 ^ (32 - p) - 1.
Proof.
  intros Ha Hp.
  rewrite lor_disjoint_add.
  - rewrite land_netmask, hostmask_eq by assumption. lia.
  - apply land_land_disjoint, netmask_hostmask_disjoint. exact Hp.
Qed.

(** A block of size [2 ^ (32 - p)] that starts below [2 ^ 32] ends below
    [2 ^ 32]. *)
Lemma block_end_bound a p :
  0 <= a < 2 ^ 32 -> 0 <= p <= 32 ->
  a - a mod 2 ^ (32 - p) + 2 ^ (32 - p) <= 2 ^ 32.
Proof.
  intros Ha Hp.
  assert (Hk : 0 < 2 ^ (32 - p)) by (apply Z.pow_pos_nonneg; lia).
  assert (Hsplit : 2 ^ 32 = 2 ^ (32 - p) * 2 ^ p).
  { rewrite <- Z.pow_add_r by lia. f_equal. lia. }
  pose proof (Z.div_mod a (2 ^ (32 - p)) ltac:(lia)) as Hdm.
  assert (Hq : a / 2 ^ (32 - p) < 2 ^ p).
  { apply Z.div_lt_upper_bound; lia. }
  replace (a - a mod 2 ^ (32 - p)) with (2 ^ (32 - p) * (a / 2 ^ (32 - p))) by lia.
  rewrite Hsplit. nia.
Qed.

Lemma block_start_bound a k : 0 <= a -> 0 < k -> 0 <= a - a mod k <= a.
Proof.
  intros Ha Hk. pose proof (Z.mod_pos_bound a k Hk).
  pose proof (Z.mod_le a k Ha Hk). lia.
Qed.

End Masks.

(** ** Inversion of the result monad *)

Lemma bind_Ok {E A B} (c : result E A) (k : A -> result E B) b :
  bind c k = Ok b -> exists a, c = Ok a /\ k a = Ok b.
Proof.
  destruct c as [a|e]; simpl; intros H; [eauto | discriminate].
Qed.

Lemma try_except_Ok {E A} (c : result E A) catches h a :
  try_except c catches h = Ok a -> c = Ok a \/ h = Ok a.
Proof.
  destruct c as [x|e]; simpl; [auto|].
  destruct (catches e); [auto | discriminate].
Qed.

Lemma forget_Ok {A} (c : result exn A) a : forget c = Ok a -> c = Ok a.
Proof.
  destruct c; simpl; intros H; [congruence | discriminate].
Qed.

Lemma mapM_Ok_length {E A B} (f : A -> result E B) l l' :
  mapM f l = Ok l' -> Forall2 (fun x y => f x = Ok y) l l'.
Proof.
  revert l'. induction l as [|x r IH]; simpl; intros l' H.
  - injection H as <-. constructor.
  - apply bind_Ok in H as (y & Hy & H).
    apply bind_Ok in H as (ys & Hys & H).
    injection H as <-. constructor; auto.
Qed.

Lemma mapM_id {E A} (f : A -> result E A) l :
  Forall (fun x => f x = Ok x) l -> mapM f l = Ok l.
Proof.
  induction 1 as [|x r Hx _ IH]; simpl; [reflexivity|].
  rewrite Hx. simpl. rewrite IH. reflexivity.
Qed.

(** ** Addresses as text: what a successful parse guarantees *)

Section Parsing.

Import ipaddress.

Lemma is_ascii_digit_val c : is_ascii_digit c = true -> 0 <= digit_val c <= 9.
Proof.
  unfold is_ascii_digit, digit_val. intros H.
  apply andb_true_iff in H as [H1 H2]. lia.
Qed.

Lemma int_digits_nonneg s : forall acc,
  all_ascii_digits s = true -> 0 <= acc -> 0 <= int_digits acc s.
Proof.
  induction s as [|c r IH]; cbn [int_digits all_ascii_digits];
    intros acc H Hacc; [exact Hacc|].
  apply andb_true_iff in H as [Hc Hr].
  apply IH; [exact Hr|]. pose proof (is_ascii_digit_val c Hc). lia.
Qed.

Lemma isascii_isdigit_all s : isascii_isdigit s = true -> all_ascii_digits s = true.
Proof. destruct s; simpl; [discriminate | auto]. Qed.

Lemma parse_octet_range s n : _parse_octet s = Ok n -> 0 <= n <= 255.
Proof.
  unfold _parse_octet.
  destruct (s =? "")%string; [discriminate|].
  destruct (isascii_isdigit s) eqn:Hd; simpl; [|discriminate].
  destruct (3 <? Z.of_nat (String.length s)); [discriminate|].
  destruct (negb (s =? "0")%string && startswith "0" s); [discriminate|].
  unfold int_str.
  destruct (int_max_str_digits <? Z.of_nat (String.length s)); simpl; [discriminate|].
  destruct (Z.ltb_spec 255 (int_digits 0 s)) as [|Hle]; [discriminate|].
  intros H. injection H as <-.
  split; [|lia].
  apply int_digits_nonneg; [apply isascii_isdigit_all; exact Hd | lia].
Qed.

Lemma land_shiftl_byte x b : 0 <= b < 256 -> Z.land (Z.shiftl x 8) b = 0.
Proof.
  intros Hb. apply Z.bits_inj'. intros n Hn.
  rewrite Z.land_spec, Z.bits_0.
  destruct (Z.ltb_spec n 8) as [Hlt|Hge].
  - rewrite Z.shiftl_spec_low by exact Hlt. reflexivity.
  - destruct (Z.eq_dec b 0) as [->|Hnz].
    + rewrite Z.bits_0. apply andb_false_r.
    + rewrite (Z.bits_above_log2 b n); [apply andb_false_r | lia |].
      apply Z.log2_lt_pow2; [lia|].
      apply Z.lt_le_trans with (2 ^ 8); [lia|].
      apply Z.pow_le_mono_r; lia.
Qed.

Lemma lor_shiftl_byte x b :
  0 <= b < 256 -> Z.lor (Z.shiftl x 8) b = x * 256 + b.
Proof.
  intros Hb.
  rewrite lor_disjoint_add by (apply land_shiftl_byte; exact Hb).
  rewrite Z.shiftl_mul_pow2 by lia. reflexivity.
Qed.

Lemma from_bytes4 a b c d :
  0 <= a <= 255 -> 0 <= b <= 255 -> 0 <= c <= 255 -> 0 <= d <= 255 ->
  from_bytes [a; b; c; d] = ((a * 256 + b) * 256 + c) * 256 + d.
Proof.
  intros Ha Hb Hc Hd. unfold from_bytes. cbn [fold_left].
  rewrite !lor_shiftl_byte by lia. lia.
Qed.

(** The pieces of a dotted quad that parses. *)
Lemma ip_int_from_string_octets s v :
  _ip_int_from_string s = Ok v ->
  exists s1 s2 s3 s4 a b c d,
    split "." s = [s1; s2; s3; s4] /\
    _parse_octet s1 = Ok a /\ _parse_octet s2 = Ok b /\
    _parse_octet s3 = Ok c /\ _parse_octet s4 = Ok d /\
    v = ((a * 256 + b) * 256 + c) * 256 + d.
Proof.
  unfold _ip_int_from_string.
  destruct (s =? "")%string; [discriminate|].
  destruct (negb (Z.of_nat (List.length (split "." s)) =? 4)) eqn:Hlen;
    [discriminate|].
  apply negb_false_iff, Z.eqb_eq in Hlen.
  destruct (split "." s) as [|s1 [|s2 [|s3 [|s4 [|s5 r]]]]]; simpl in Hlen; try lia.
  intros H. apply try_except_Ok in H as [H|H]; [|discriminate].
  apply bind_Ok in H as (bs & Hbs & H). injection H as <-.
  apply mapM_Ok_length in Hbs.
  inversion Hbs as [|? a ? l1 Ha H1]; subst; clear Hbs.
  inversion H1 as [|? b ? l2 Hb H2]; subst; clear H1.
  inversion H2 as [|? c ? l3 Hc H3]; subst; clear H2.
  inversion H3 as [|? d ? l4 Hd H4]; subst; clear H3.
  inversion H4; subst; clear H4.
  exists s1, s2, s3, s4, a, b, c, d.
  repeat split; try assumption.
  apply from_bytes4; eapply parse_octet_range; eassumption.
Qed.

Lemma ip_int_from_string_range s v :
  _ip_int_from_string s = Ok v -> 0 <= v < 2 ^ 32.
Proof.
  intros H.
  apply ip_int_from_string_octets in H
    as (s1 & s2 & s3 & s4 & a & b & c & d & _ & Ha & Hb & Hc & Hd & ->).
  apply parse_octet_range in Ha, Hb, Hc, Hd.
  change (2 ^ 32) with 4294967296. lia.
Qed.

Lemma IPv4Address_str_range s v : IPv4Address_str s = Ok v -> 0 <= v < 2 ^ 32.
Proof.
  unfold IPv4Address_str. destruct (contains "/" s); [discriminate|].
  apply ip_int_from_string_range.
Qed.

Lemma IPv4Address_int_Ok a : 0 <= a < 2 ^ 32 -> IPv4Address_int a = Ok a.
Proof.
  intros Ha. unfold IPv4Address_int, _check_int_address, _ALL_ONES.
  destruct (Z.ltb_spec a 0); [lia|].
  destruct (Z.ltb_spec (2 ^ 32 - 1) a); [lia|]. reflexivity.
Qed.

Lemma IPv4Address_int_inv a b : IPv4Address_int a = Ok b -> b = a /\ 0 <= a < 2 ^ 32.
Proof.
  unfold IPv4Address_int, _check_int_address, _ALL_ONES.
  destruct (Z.ltb_spec a 0) as [|Hlo]; [discriminate|].
  destruct (Z.ltb_spec (2 ^ 32 - 1) a) as [|Hhi]; [discriminate|].
  simpl. intros Heq. injection Heq as <-. lia.
Qed.

Lemma count_righthand_zero_bits_range v : 0 <= v ->
  0 <= _count_righthand_zero_bits v 32 <= 32.
Proof.
  intros Hv. unfold _count_righthand_zero_bits, bit_length.
  destruct (v =? 0); [lia|].
  destruct (Z.land (Z.lnot v) (v - 1) =? 0); [lia|].
  pose proof (Z.log2_nonneg (Z.land (Z.lnot v) (v - 1))). lia.
Qed.

(** What the contiguity check establishes when it passes. *)
Lemma prefix_from_ip_int_inv v p :
  _prefix_from_ip_int v = Ok p ->
  p = 32 - _count_righthand_zero_bits v 32 /\
  Z.shiftr v (_count_righthand_zero_bits v 32) = Z.shiftl 1 p - 1.
Proof.
  unfold _prefix_from_ip_int. change _max_prefixlen with 32.
  set (tz := _count_righthand_zero_bits v 32). cbv zeta.
  destruct (Z.eqb_spec (Z.shiftr v tz) (Z.shiftl 1 (32 - tz) - 1)) as [He|Hne];
    cbn [negb].
  - intros H. assert (Hp : 32 - tz = p) by congruence.
    subst p. split; [reflexivity | exact He].
  - destruct (forget (to_bytes4 v)); discriminate.
Qed.

Lemma prefix_from_ip_int_range v p :
  0 <= v -> _prefix_from_ip_int v = Ok p -> 0 <= p <= 32.
Proof.
  intros Hv H. apply prefix_from_ip_int_inv in H as [-> _].
  pose proof (count_righthand_zero_bits_range v Hv). lia.
Qed.

Lemma prefix_from_prefix_string_range s p :
  _prefix_from_prefix_string s = Ok p -> 0 <= p <= 32.
Proof.
  unfold _prefix_from_prefix_string, _report_invalid_netmask, _max_prefixlen.
  destruct (negb (isascii_isdigit s)); [discriminate|].
  intros H. apply bind_Ok in H as (n & _ & H).
  destruct (negb _) eqn:Hr; [discriminate|].
  injection H as <-. apply negb_false_iff, andb_true_iff in Hr. lia.
Qed.

Lemma lxor_ones_range v : 0 <= v < 2 ^ 32 -> 0 <= Z.lxor v _ALL_ONES < 2 ^ 32.
Proof.
  intros Hv.
  assert (H : Z.lxor v _ALL_ONES = 2 ^ 32 - 1 - v).
  { unfold _ALL_ONES.
    assert (Hd : Z.land v (2 ^ 32 - 1 - v) = 0).
    { replace (2 ^ 32 - 1 - v) with (Z.ones 32 - v) by (rewrite Z.ones_equiv; lia).
      apply Z.bits_inj'. intros n Hn. rewrite Z.land_spec, Z.bits_0.
      destruct (Z.ltb_spec n 32) as [Hlt|Hge].
      - replace (Z.ones 32 - v) with (Z.lnot v mod 2 ^ 32).
        + rewrite Z.mod_pow2_bits_low by lia. rewrite Z.lnot_spec by lia.
          apply andb_negb_r.
        + unfold Z.lnot. rewrite Z.ones_equiv.
          replace (Z.pred (- v)) with ((2 ^ 32 - 1 - v) + (-1) * 2 ^ 32) by lia.
          rewrite Z.mod_add by lia. rewrite Z.mod_small; lia.
      - destruct (Z.eq_dec v 0) as [->|Hnz]; [rewrite Z.bits_0; reflexivity|].
        rewrite (Z.bits_above_log2 v n); [reflexivity | lia |].
        apply Z.log2_lt_pow2; [lia|].
        apply Z.lt_le_trans with (2 ^ 32); [lia|].
        apply Z.pow_le_mono_r; lia. }
    set (w := 2 ^ 32 - 1 - v) in *.
    assert (Hadd : v + w = Z.lxor v w) by (apply Z.add_nocarry_lxor; exact Hd).
    replace (2 ^ 32 - 1) with (v + w) by (unfold w; lia).
    rewrite Hadd, <- Z.lxor_assoc, Z.lxor_nilpotent, Z.lxor_0_l.
    reflexivity. }
  rewrite H. lia.
Qed.

(** A dotted mask that is accepted parses as an address, and the
    contiguity check passes on its value or on the complement of it. *)
Lemma prefix_from_ip_string_inv s p :
  _prefix_from_ip_string s = Ok p ->
  exists v, _ip_int_from_string s = Ok v /\
    (_prefix_from_ip_int v = Ok p \/
     (exists k, _prefix_from_ip_int v = Raise k) /\
     _prefix_from_ip_int (Z.lxor v _ALL_ONES) = Ok p).
Proof.
  unfold _prefix_from_ip_string, _report_invalid_netmask.
  intros H. apply bind_Ok in H as (v & Hv & H).
  apply try_except_Ok in Hv as [Hv|Hv]; [|discriminate].
  exists v. split; [exact Hv|].
  destruct (_prefix_from_ip_int v) as [q|k] eqn:Hq.
  - left. exact H.
  - right. split; [eauto|].
    destruct (is_ValueError k); [|discriminate].
    apply try_except_Ok in H as [H|H]; [exact H | discriminate].
Qed.

Lemma make_netmask_inv m nm p :
  _make_netmask m = Ok (nm, p) ->
  0 <= p <= 32 /\ nm = _ip_int_from_prefix p.
Proof.
  unfold _make_netmask. intros H.
  apply bind_Ok in H as (q & Hq & H).
  apply bind_Ok in H as (nm' & Hnm & H).
  assert (Heq : nm' = nm /\ q = p) by (split; congruence).
  destruct Heq as [-> ->].
  apply forget_Ok, IPv4Address_int_inv in Hnm as [Hnm _].
  split; [|exact Hnm].
  destruct m as [n|s].
  - unfold _report_invalid_netmask, _max_prefixlen in Hq.
    destruct (Z.leb_spec 0 n), (Z.leb_spec n 32); simpl in Hq;
      try discriminate.
    assert (n = p) by congruence. lia.
  - apply try_except_Ok in Hq as [Hq|Hq].
    + eapply prefix_from_prefix_string_range; eassumption.
    + apply prefix_from_ip_string_inv in Hq as (v & Hv & [Hq|[_ Hq]]).
      * apply ip_int_from_string_range in Hv.
        eapply prefix_from_ip_int_range; [|eassumption]. lia.
      * apply ip_int_from_string_range, lxor_ones_range in Hv.
        eapply prefix_from_ip_int_range; [|eassumption]. lia.
Qed.

Lemma ip_int_from_prefix_range p :
  0 <= p <= 32 -> 0 <= _ip_int_from_prefix p < 2 ^ 32.
Proof.
  intros Hp. rewrite ip_int_from_prefix_eq by exact Hp.
  assert (0 < 2 ^ (32 - p)) by (apply Z.pow_pos_nonneg; lia).
  assert (2 ^ (32 - p) <= 2 ^ 32) by (apply Z.pow_le_mono_r; lia).
  lia.
Qed.

Lemma IPv4Network_pair_inv addr m n :
  IPv4Network_pair addr m false = Ok n ->
  exists a, IPv4Address_str addr = Ok a /\
    _make_netmask m = Ok (netmask n, _prefixlen n) /\
    ipaddress.network_address n = Z.land a (netmask n).
Proof.
  unfold IPv4Network_pair. intros H.
  apply bind_Ok in H as (a & Ha & H).
  apply bind_Ok in H as ([nm p] & Hm & H).
  apply bind_Ok in H as (na & Hna & H).
  assert (Hn : n = {| ipaddress.network_address := na;
                      netmask := nm; _prefixlen := p |}) by congruence.
  subst n. cbn [ipaddress.network_address netmask _prefixlen].
  exists a. repeat split; try assumption.
  destruct (Z.eqb_spec (Z.land a nm) a) as [He|Hne]; cbn [negb] in Hna.
  - congruence.
  - apply forget_Ok, IPv4Address_int_inv in Hna as [Hna _]. exact Hna.
Qed.

Lemma IPv4Interface_str_inv target iface :
  IPv4Interface_str target = Ok iface ->
  exists addr m,
    _split_addr_prefix target = Ok (addr, m) /\
    IPv4Address_str addr = Ok (_ip iface) /\
    _make_netmask m = Ok (netmask (network iface), _prefixlen (network iface)) /\
    ipaddress.network_address (network iface)
    = Z.land (_ip iface) (netmask (network iface)).
Proof.
  unfold IPv4Interface_str. intros H.
  apply bind_Ok in H as ([addr m] & Hs & H).
  apply bind_Ok in H as (a & Ha & H).
  apply bind_Ok in H as (n & Hn & H).
  assert (Hi : iface = {| _ip := a; network := n |}) by congruence.
  subst iface. cbn [_ip network].
  apply IPv4Network_pair_inv in Hn as (a' & Ha' & Hm & Hna).
  assert (a' = a) by congruence. subst a'.
  exists addr, m. repeat split; assumption.
Qed.

Lemma IPv4Interface_well_formed target iface :
  IPv4Interface_str target = Ok iface -> well_formed iface.
Proof.
  intros H. apply IPv4Interface_str_inv in H as (addr & m & _ & Ha & Hm & Hna).
  apply IPv4Address_str_range in Ha.
  apply make_netmask_inv in Hm as [Hp Hnm].
  unfold well_formed. auto.
Qed.

End Parsing.

(** ** Ranges and indexing *)

Lemma range_length lo hi : List.length (range lo hi) = Z.to_nat (hi - lo).
Proof. unfold range. rewrite length_map, length_seq. reflexivity. Qed.

Lemma range_nth_error lo hi i :
  (i < Z.to_nat (hi - lo))%nat ->
  nth_error (range lo hi) i = Some (lo + Z.of_nat i).
Proof.
  intros Hi. unfold range.
  rewrite nth_error_map.
  rewrite (nth_error_nth' _ 0%nat) by (rewrite length_seq; exact Hi).
  rewrite seq_nth by exact Hi. reflexivity.
Qed.

Lemma range_Forall (P : Z -> Prop) lo hi :
  (forall x, lo <= x < hi -> P x) -> Forall P (range lo hi).
Proof.
  intros H. unfold range. apply Forall_forall. intros x Hx.
  apply in_map_iff in Hx as (i & <- & Hi). apply in_seq in Hi.
  apply H. lia.
Qed.

Lemma getitem_range_first lo hi :
  lo < hi -> getitem (range lo hi) 0 = Ok lo.
Proof.
  intros Hlt. unfold getitem. rewrite range_length.
  cbn [Z.ltb Z.compare].
  destruct (Z.ltb_spec 0 0) as [|_]; [lia|].
  destruct (Z.leb_spec (Z.of_nat (Z.to_nat (hi - lo))) 0) as [|_]; [lia|].
  cbn [orb Z.to_nat].
  rewrite range_nth_error by lia. f_equal. cbn. lia.
Qed.

Lemma getitem_range_last lo hi :
  lo < hi -> getitem (range lo hi) (-1) = Ok (hi - 1).
Proof.
  intros Hlt. unfold getitem. rewrite range_length.
  cbn [Z.ltb Z.compare].
  destruct (Z.ltb_spec (-1 + Z.of_nat (Z.to_nat (hi - lo))) 0) as [|_]; [lia|].
  destruct (Z.leb_spec (Z.of_nat (Z.to_nat (hi - lo)))
              (-1 + Z.of_nat (Z.to_nat (hi - lo)))) as [|_]; [lia|].
  cbn [orb].
  rewrite range_nth_error by lia. f_equal. lia.
Qed.

(** ** Splitting and joining *)

Lemma split_nonempty sep s : split sep s <> [].
Proof.
  destruct s as [|c r]; cbn [split]; [discriminate|].
  destruct (Ascii.eqb c sep); [discriminate|].
  destruct (split sep r); discriminate.
Qed.

Lemma join_cons_char sep c h t :
  join sep (String c h :: t) = String c (join sep (h :: t)).
Proof. destruct t; reflexivity. Qed.

(** Joining the pieces of a string gives the string back. *)
Lemma join_split sep s : join (String sep "") (split sep s) = s.
Proof.
  induction s as [|c r IH]; [reflexivity|].
  cbn [split]. destruct (Ascii.eqb_spec c sep) as [->|Hne].
  - pose proof (split_nonempty sep r) as Hnil.
    destruct (split sep r) as [|h t]; [contradiction|].
    change (join (String sep "") ("" :: h :: t))
      with (String sep (join (String sep "") (h :: t))).
    rewrite IH. reflexivity.
  - pose proof (split_nonempty sep r) as Hnil.
    destruct (split sep r) as [|h t]; [contradiction|].
    rewrite join_cons_char, IH. reflexivity.
Qed.

Lemma split_no_sep sep s : contains sep s = false -> split sep s = [s].
Proof.
  induction s as [|c r IH]; cbn [split contains]; [reflexivity|].
  intros H. apply orb_false_iff in H as [Hc Hr].
  rewrite Hc, (IH Hr). reflexivity.
Qed.

Lemma split_app_sep sep x y :
  contains sep x = false ->
  split sep (x ++ String sep y) = x :: split sep y.
Proof.
  induction x as [|c r IH]; cbn [split contains append].
  - intros _. rewrite Ascii.eqb_refl. reflexivity.
  - intros H. apply orb_false_iff in H as [Hc Hr].
    rewrite Hc, (IH Hr). reflexivity.
Qed.

Lemma contains_app c x y : contains c (x ++ y) = contains c x || contains c y.
Proof.
  induction x as [|d r IH]; cbn [contains append]; [reflexivity|].
  rewrite IH. apply orb_assoc.
Qed.

(** ** Octets and dotted quads: printing and parsing are inverse *)

Section Text.

Import ipaddress.

Lemma is_ascii_digit_In c : is_ascii_digit c = true -> In c digit_chars.
Proof.
  destruct c as [[] [] [] [] [] [] [] []]; vm_compute; intros H;
    try discriminate H; repeat first [left; reflexivity | right].
Qed.

Lemma in_digit_strings s :
  all_ascii_digits s = true -> In s (digit_strings (String.length s)).
Proof.
  induction s as [|c r IH]; cbn [all_ascii_digits String.length digit_strings].
  - intros _. left. reflexivity.
  - intros H. apply andb_true_iff in H as [Hc Hr].
    apply in_flat_map. exists c. split; [apply is_ascii_digit_In; exact Hc|].
    apply in_map, IH, Hr.
Qed.

Lemma short_digit_strings_roundtrip :
  forallb (fun s => match _parse_octet s with
                    | Ok n => (str_int n =? s)%string
                    | Raise _ => true
                    end)
    (digit_strings 1 ++ digit_strings 2 ++ digit_strings 3) = true.
Proof. vm_compute. reflexivity. Qed.

(** An octet that parses is written the way [str] writes its value. *)
Lemma parse_octet_str s n : _parse_octet s = Ok n -> str_int n = s.
Proof.
  intros H.
  assert (Hin : In s (digit_strings 1 ++ digit_strings 2 ++ digit_strings 3)).
  { unfold _parse_octet in H.
    destruct s as [|c1 r1]; [discriminate H|].
    cbn [String.eqb] in H.
    destruct (isascii_isdigit (String c1 r1)) eqn:Hd; [|discriminate H].
    cbn [negb] in H.
    destruct (Z.ltb_spec 3 (Z.of_nat (String.length (String c1 r1)))) as [|Hlen];
      [discriminate H|].
    apply isascii_isdigit_all, in_digit_strings in Hd.
    destruct r1 as [|c2 [|c3 [|c4 r4]]]; cbn [String.length] in Hd, Hlen.
    - apply in_or_app. left. exact Hd.
    - apply in_or_app. right. apply in_or_app. left. exact Hd.
    - apply in_or_app. right. apply in_or_app. right. exact Hd.
    - exfalso. lia. }
  pose proof short_digit_strings_roundtrip as Hall.
  rewrite forallb_forall in Hall. specialize (Hall s Hin).
  rewrite H in Hall. apply String.eqb_eq. exact Hall.
Qed.

Lemma str_parse_octet n : 0 <= n <= 255 -> _parse_octet (str_int n) = Ok n.
Proof.
  intros Hn.
  assert (H : match _parse_octet (str_int n) with
              | Ok m => m =? n
              | Raise _ => false
              end = true).
  { apply (forall_below (fun n => match _parse_octet (str_int n) with
                                  | Ok m => m =? n
                                  | Raise _ => false
                                  end) 256);
      [vm_compute; reflexivity | lia]. }
  destruct (_parse_octet (str_int n)) as [m|]; [|discriminate H].
  apply Z.eqb_eq in H. congruence.
Qed.

Lemma str_octet_plain n :
  0 <= n <= 255 ->
  contains "." (str_int n) = false /\ contains "/" (str_int n) = false /\
  str_int n <> "".
Proof.
  intros Hn.
  assert (H : negb (contains "." (str_int n)) && negb (contains "/" (str_int n))
              && negb (str_int n =? "")%string = true).
  { apply (forall_below
             (fun n => negb (contains "." (str_int n))
                       && negb (contains "/" (str_int n))
                       && negb (str_int n =? "")%string) 256);
      [vm_compute; reflexivity | lia]. }
  apply andb_true_iff in H as [H H3]. apply andb_true_iff in H as [H1 H2].
  apply negb_true_iff in H1, H2, H3.
  repeat split; try assumption.
  apply String.eqb_neq. exact H3.
Qed.

Lemma land_255 x : Z.land x 255 = x mod 256.
Proof. change 255 with (Z.ones 8). apply Z.land_ones. lia. Qed.

Lemma octets_of_quad a b c d :
  0 <= a <= 255 -> 0 <= b <= 255 -> 0 <= c <= 255 -> 0 <= d <= 255 ->
  octets (((a * 256 + b) * 256 + c) * 256 + d) = [a; b; c; d].
Proof.
  intros Ha Hb Hc Hd. unfold octets.
  rewrite !land_255, !Z.shiftr_div_pow2 by lia.
  change (2 ^ 24) with 16777216. change (2 ^ 16) with 65536.
  change (2 ^ 8) with 256.
  set (v := ((a * 256 + b) * 256 + c) * 256 + d).
  assert (H1 : v / 16777216 = a)
    by (symmetry; apply (Z.div_unique v 16777216 a (v - a * 16777216)); lia).
  assert (H2 : v / 65536 = a * 256 + b)
    by (symmetry; apply (Z.div_unique v 65536 _ (c * 256 + d)); lia).
  assert (H3 : v / 256 = (a * 256 + b) * 256 + c)
    by (symmetry; apply (Z.div_unique v 256 _ d); lia).
  rewrite H1, H2, H3.
  assert (M1 : a mod 256 = a) by (apply Z.mod_small; lia).
  assert (M2 : (a * 256 + b) mod 256 = b)
    by (symmetry; apply (Z.mod_unique _ 256 a b); lia).
  assert (M3 : ((a * 256 + b) * 256 + c) mod 256 = c)
    by (symmetry; apply (Z.mod_unique _ 256 (a * 256 + b) c); lia).
  assert (M4 : v mod 256 = d)
    by (symmetry; apply (Z.mod_unique _ 256 ((a * 256 + b) * 256 + c) d); lia).
  rewrite M1, M2, M3, M4. reflexivity.
Qed.

Lemma quad_of_octets v :
  0 <= v < 2 ^ 32 ->
  exists a b c d,
    octets v = [a; b; c; d] /\
    0 <= a <= 255 /\ 0 <= b <= 255 /\ 0 <= c <= 255 /\ 0 <= d <= 255 /\
    v = ((a * 256 + b) * 256 + c) * 256 + d.
Proof.
  intros Hv. change (2 ^ 32) with 4294967296 in Hv.
  set (d := v mod 256). set (v1 := v / 256).
  set (c := v1 mod 256). set (v2 := v1 / 256).
  set (b := v2 mod 256). set (a := v2 / 256).
  assert (Hd : v = v1 * 256 + d /\ 0 <= d < 256).
  { unfold v1, d. pose proof (Z.div_mod v 256 ltac:(lia)).
    pose proof (Z.mod_pos_bound v 256 ltac:(lia)). lia. }
  assert (Hc : v1 = v2 * 256 + c /\ 0 <= c < 256).
  { unfold v2, c. pose proof (Z.div_mod v1 256 ltac:(lia)).
    pose proof (Z.mod_pos_bound v1 256 ltac:(lia)). lia. }
  assert (Hb : v2 = a * 256 + b /\ 0 <= b < 256).
  { unfold a, b. pose proof (Z.div_mod v2 256 ltac:(lia)).
    pose proof (Z.mod_pos_bound v2 256 ltac:(lia)). lia. }
  assert (Heq : v = ((a * 256 + b) * 256 + c) * 256 + d) by lia.
  assert (Ha : 0 <= a <= 255) by lia.
  exists a, b, c, d.
  split; [rewrite Heq; apply octets_of_quad; lia|].
  repeat split; lia.
Qed.

(** A dotted quad that parses is the dotted notation of its value: the
    parser accepts no other spelling. *)
Lemma ip_int_from_string_dotted s v :
  _ip_int_from_string s = Ok v -> dotted v = s.
Proof.
  intros H.
  apply ip_int_from_string_octets in H
    as (s1 & s2 & s3 & s4 & a & b & c & d & Hsplit & Ha & Hb & Hc & Hd & ->).
  unfold dotted.
  rewrite octets_of_quad by (eapply parse_octet_range; eassumption).
  cbn [map].
  rewrite (parse_octet_str _ _ Ha), (parse_octet_str _ _ Hb),
    (parse_octet_str _ _ Hc), (parse_octet_str _ _ Hd).
  rewrite <- Hsplit. apply (join_split "." s).
Qed.

(** The dotted notation of a 32-bit value parses to that value. *)
Lemma ip_int_from_dotted v :
  0 <= v < 2 ^ 32 -> _ip_int_from_string (dotted v) = Ok v.
Proof.
  intros Hv.
  destruct (quad_of_octets v Hv) as (a & b & c & d & Ho & Ha & Hb & Hc & Hd & Heq).
  destruct (str_octet_plain a Ha) as (Ha1 & _ & Ha3).
  destruct (str_octet_plain b Hb) as (Hb1 & _ & _).
  destruct (str_octet_plain c Hc) as (Hc1 & _ & _).
  destruct (str_octet_plain d Hd) as (Hd1 & _ & _).
  unfold _ip_int_from_string, dotted. rewrite Ho. cbn [map join].
  assert (Hsplit : split "." (str_int a ++ "." ++ str_int b ++ "." ++
                              str_int c ++ "." ++ str_int d)
                   = [str_int a; str_int b; str_int c; str_int d]).
  { cbn [append].
    rewrite (split_app_sep "." _ _ Ha1), (split_app_sep "." _ _ Hb1),
      (split_app_sep "." _ _ Hc1), (split_no_sep "." _ Hd1). reflexivity. }
  destruct (String.eqb_spec
              (str_int a ++ "." ++ str_int b ++ "." ++ str_int c ++ "." ++ str_int d)
              "") as [He|_].
  { exfalso. destruct (str_int a); [apply Ha3; reflexivity | discriminate He]. }
  rewrite Hsplit. cbn [List.length Z.of_nat Pos.of_succ_nat Pos.succ Z.eqb
                        Pos.eqb negb mapM].
  rewrite !str_parse_octet by assumption.
  cbn [bind try_except]. rewrite from_bytes4 by assumption.
  congruence.
Qed.

End Text.

Lemma to_bytes4_range v :
  0 <= v < 2 ^ 32 -> exists bs, to_bytes4 v = Ok bs.
Proof.
  intros Hv. unfold to_bytes4.
  destruct (Z.ltb_spec v 0); [lia|].
  destruct (Z.leb_spec (2 ^ 32) v); [lia|]. eauto.
Qed.

(** ** The contiguity check of the mask normalizer *)

Section Contiguity.

Import ipaddress.

Lemma ones_then_zeros_bits n i :
  0 <= n <= 32 -> 0 <= i < 32 ->
  Z.testbit (ones_then_zeros n) i = (32 - n <=? i).
Proof.
  intros Hn Hi.
  assert (H : forallb (fun i => Bool.eqb (Z.testbit (ones_then_zeros n) i)
                                  (32 - n <=? i))
                (map Z.of_nat (seq 0 32)) = true).
  { apply (forall_below
             (fun n => forallb (fun i => Bool.eqb (Z.testbit (ones_then_zeros n) i)
                                           (32 - n <=? i))
                         (map Z.of_nat (seq 0 32))) 33);
      [vm_compute; reflexivity | lia]. }
  apply Bool.eqb_prop.
  apply (forall_below _ 32 H). lia.
Qed.

Lemma zeros_then_ones_bits n i :
  0 <= n <= 32 -> 0 <= i < 32 ->
  Z.testbit (zeros_then_ones n) i = (i <? 32 - n).
Proof.
  intros Hn Hi.
  assert (H : forallb (fun i => Bool.eqb (Z.testbit (zeros_then_ones n) i)
                                  (i <? 32 - n))
                (map Z.of_nat (seq 0 32)) = true).
  { apply (forall_below
             (fun n => forallb (fun i => Bool.eqb (Z.testbit (zeros_then_ones n) i)
                                           (i <? 32 - n))
                         (map Z.of_nat (seq 0 32))) 33);
      [vm_compute; reflexivity | lia]. }
  apply Bool.eqb_prop.
  apply (forall_below _ 32 H). lia.
Qed.

Lemma ip_int_from_prefix_pattern n :
  0 <= n <= 32 -> _ip_int_from_prefix n = ones_then_zeros n.
Proof. apply ip_int_from_prefix_eq. Qed.

Lemma hostmask_pattern n :
  0 <= n <= 32 -> Z.lxor (ones_then_zeros n) _ALL_ONES = zeros_then_ones n.
Proof.
  intros Hn. rewrite <- ip_int_from_prefix_pattern by exact Hn.
  apply hostmask_eq. exact Hn.
Qed.

Lemma lxor_ones_involutive v : Z.lxor (Z.lxor v _ALL_ONES) _ALL_ONES = v.
Proof. rewrite Z.lxor_assoc, Z.lxor_nilpotent. apply Z.lxor_0_r. Qed.

Lemma land_double x y : Z.land (2 * x) (2 * y) = 2 * Z.land x y.
Proof.
  apply Z.bits_inj'. intros i Hi. rewrite Z.land_spec.
  destruct (Z.eq_dec i 0) as [->|Hnz].
  - rewrite !Z.testbit_even_0. reflexivity.
  - replace i with (Z.succ (i - 1)) by lia.
    rewrite !Z.testbit_even_succ by lia. symmetry. apply Z.land_spec.
Qed.

Lemma land_double_succ x y :
  Z.land (2 * x + 1) (2 * y + 1) = 2 * Z.land x y + 1.
Proof.
  apply Z.bits_inj'. intros i Hi. rewrite Z.land_spec.
  destruct (Z.eq_dec i 0) as [->|Hnz].
  - rewrite !Z.testbit_odd_0. reflexivity.
  - replace i with (Z.succ (i - 1)) by lia.
    rewrite !Z.testbit_odd_succ by lia. symmetry. apply Z.land_spec.
Qed.

Lemma pos_ctz_nonneg q : 0 <= pos_ctz q.
Proof. induction q; cbn [pos_ctz]; lia. Qed.

(** [~v & (v - 1)] is the mask of the zero bits at the low end of [v]. *)
Lemma low_zero_mask q :
  Z.land (Z.lnot (Z.pos q)) (Z.pos q - 1) = 2 ^ pos_ctz q - 1.
Proof.
  induction q as [q IH|q IH|]; cbn [pos_ctz].
  - replace (Z.lnot (Z.pos q~1)) with (2 * Z.lnot (Z.pos q))
      by (unfold Z.lnot; lia).
    replace (Z.pos q~1 - 1) with (2 * Z.pos q) by lia.
    rewrite land_double, Z.land_comm, Z.land_lnot_diag. reflexivity.
  - replace (Z.lnot (Z.pos q~0)) with (2 * Z.lnot (Z.pos q) + 1)
      by (unfold Z.lnot; lia).
    replace (Z.pos q~0 - 1) with (2 * (Z.pos q - 1) + 1) by lia.
    rewrite land_double_succ, IH.
    rewrite Z.pow_add_r by (pose proof (pos_ctz_nonneg q); lia).
    change (2 ^ 1) with 2. lia.
  - reflexivity.
Qed.

Lemma pos_ctz_divides q : exists m, Z.pos q = m * 2 ^ pos_ctz q /\ 0 < m.
Proof.
  induction q as [q _|q [m [Hm Hpos]]|]; cbn [pos_ctz].
  - exists (Z.pos q~1). split; lia.
  - exists m. split; [|exact Hpos].
    rewrite Z.pow_add_r by (pose proof (pos_ctz_nonneg q); lia).
    change (2 ^ 1) with 2. lia.
  - exists 1. split; lia.
Qed.

Lemma bit_length_low_mask t : 0 <= t -> bit_length (2 ^ t - 1) = t.
Proof.
  intros Ht. unfold bit_length.
  destruct (Z.eq_dec t 0) as [->|Hnz]; [reflexivity|].
  assert (2 <= 2 ^ t).
  { change 2 with (2 ^ 1) at 1. apply Z.pow_le_mono_r; lia. }
  destruct (Z.eqb_spec (2 ^ t - 1) 0) as [|_]; [lia|].
  replace (2 ^ t - 1) with (Z.pred (2 ^ t)) by lia.
  rewrite Z.log2_pred_pow2 by lia. lia.
Qed.

(** On a positive 32-bit value the count is the number of low zero bits. *)
Lemma count_righthand_zero_bits_pos q :
  Z.pos q < 2 ^ 32 ->
  _count_righthand_zero_bits (Z.pos q) 32 = pos_ctz q /\ pos_ctz q < 32.
Proof.
  intros Hq. unfold _count_righthand_zero_bits.
  cbn [Z.eqb]. rewrite low_zero_mask.
  pose proof (pos_ctz_nonneg q) as Ht.
  rewrite bit_length_low_mask by exact Ht.
  destruct (pos_ctz_divides q) as (m & Hm & Hpos).
  assert (Hlt : pos_ctz q < 32).
  { apply (Z.pow_lt_mono_r_iff 2); [lia | lia |].
    assert (0 < 2 ^ pos_ctz q) by (apply Z.pow_pos_nonneg; lia). nia. }
  split; [lia | exact Hlt].
Qed.

(** The check passes on bit patterns of netmasks only. *)
Lemma prefix_from_ip_int_sound v p :
  0 <= v < 2 ^ 32 -> _prefix_from_ip_int v = Ok p ->
  0 <= p <= 32 /\ v = ones_then_zeros p.
Proof.
  intros Hv H.
  pose proof (prefix_from_ip_int_range v p (proj1 Hv) H) as Hp.
  split; [exact Hp|].
  apply prefix_from_ip_int_inv in H as [Hpe Hshift].
  destruct v as [|q|q]; [| |lia].
  - unfold _count_righthand_zero_bits in Hpe. cbn [Z.eqb] in Hpe.
    subst p. reflexivity.
  - destruct (count_righthand_zero_bits_pos q (proj2 Hv)) as [Htz Hlt].
    rewrite Htz in Hpe, Hshift.
    pose proof (pos_ctz_nonneg q) as Ht.
    destruct (pos_ctz_divides q) as (m & Hm & Hpos).
    rewrite Z.shiftr_div_pow2, Z.shiftl_1_l in Hshift by lia.
    assert (Hk : 0 < 2 ^ pos_ctz q) by (apply Z.pow_pos_nonneg; lia).
    rewrite Hm, Z.div_mul in Hshift by lia.
    unfold ones_then_zeros. rewrite Hm, Hshift.
    replace (32 - p) with (pos_ctz q) by lia.
    rewrite Z.mul_sub_distr_r, <- Z.pow_add_r by lia.
    replace (p + pos_ctz q) with 32 by lia. lia.
Qed.

(** The check passes on every bit pattern of a netmask. *)
Lemma prefix_from_ip_int_complete n :
  0 <= n <= 32 -> _prefix_from_ip_int (ones_then_zeros n) = Ok n.
Proof.
  intros Hn.
  assert (H : match _prefix_from_ip_int (ones_then_zeros n) with
              | Ok p => p =? n
              | Raise _ => false
              end = true).
  { apply (forall_below (fun n => match _prefix_from_ip_int (ones_then_zeros n) with
                                  | Ok p => p =? n
                                  | Raise _ => false
                                  end) 33);
      [vm_compute; reflexivity | lia]. }
  destruct (_prefix_from_ip_int (ones_then_zeros n)) as [p|]; [|discriminate H].
  apply Z.eqb_eq in H. congruence.
Qed.

(** The only exception of the check is [ValueError]. *)
Lemma prefix_from_ip_int_raises v k :
  0 <= v < 2 ^ 32 -> _prefix_from_ip_int v = Raise k -> k = ValueError.
Proof.
  intros Hv. unfold _prefix_from_ip_int.
  destruct (negb _); [|discriminate].
  destruct (to_bytes4_range v Hv) as [bs ->]. cbn [forget bind]. congruence.
Qed.

End Contiguity.

(** ** White space and [strip] *)

Lemma lstrip_no_space s : has_space s = false -> lstrip s = s.
Proof.
  destruct s as [|c r]; cbn [has_space lstrip]; [reflexivity|].
  intros H. apply orb_false_iff in H as [-> _]. reflexivity.
Qed.

Lemma rstrip_no_space s : has_space s = false -> rstrip s = s.
Proof.
  induction s as [|c r IH]; cbn [has_space rstrip]; [reflexivity|].
  intros H. apply orb_false_iff in H as [Hc Hr].
  rewrite (IH Hr), Hc. destruct r; reflexivity.
Qed.

Lemma strip_no_space s : has_space s = false -> strip s = s.
Proof.
  intros H. unfold strip. rewrite (lstrip_no_space s H).
  apply rstrip_no_space, H.
Qed.

Lemma has_space_app x y : has_space (x ++ y) = has_space x || has_space y.
Proof.
  induction x as [|c r IH]; cbn [has_space append]; [reflexivity|].
  rewrite IH. apply orb_assoc.
Qed.

Lemma digit_not_space c : is_ascii_digit c = true -> isspace c = false.
Proof.
  intros H. apply is_ascii_digit_In in H.
  cbn [In digit_chars] in H.
  repeat (destruct H as [<-|H]; [reflexivity|]). contradiction.
Qed.

Lemma digits_no_space s : all_ascii_digits s = true -> has_space s = false.
Proof.
  induction s as [|c r IH]; cbn [all_ascii_digits has_space]; [reflexivity|].
  intros H. apply andb_true_iff in H as [Hc Hr].
  rewrite (digit_not_space c Hc), (IH Hr). reflexivity.
Qed.

Lemma digits_no_sep (sep : ascii) s :
  is_ascii_digit sep = false ->
  all_ascii_digits s = true -> contains sep s = false.
Proof.
  intros Hsep. induction s as [|c r IH]; cbn [all_ascii_digits contains];
    [reflexivity|].
  intros H. apply andb_true_iff in H as [Hc Hr].
  rewrite (IH Hr), orb_false_r.
  destruct (Ascii.eqb_spec c sep) as [->|]; [congruence | reflexivity].
Qed.

(** [strip] removes white space only: it keeps every other character. *)
Lemma contains_lstrip c s :
  isspace c = false -> contains c (lstrip s) = contains c s.
Proof.
  intros Hc. induction s as [|d r IH]; cbn [lstrip]; [reflexivity|].
  destruct (isspace d) eqn:Hd; [|reflexivity].
  rewrite IH. cbn [contains].
  destruct (Ascii.eqb_spec d c) as [->|]; [congruence | reflexivity].
Qed.

Lemma contains_rstrip c s :
  isspace c = false -> contains c (rstrip s) = contains c s.
Proof.
  intros Hc. induction s as [|d r IH]; cbn [rstrip]; [reflexivity|].
  cbn [contains]. rewrite <- IH.
  destruct (rstrip r) as [|e r'].
  - destruct (isspace d) eqn:Hd; cbn [contains].
    + destruct (Ascii.eqb_spec d c) as [->|]; [congruence | reflexivity].
    + reflexivity.
  - reflexivity.
Qed.

Lemma contains_strip c s :
  isspace c = false -> contains c (strip s) = contains c s.
Proof.
  intros Hc. unfold strip.
  rewrite contains_rstrip, contains_lstrip by exact Hc. reflexivity.
Qed.

(** ** The mask normalizer *)

Section Normalizer.

Import ipaddress.

(** The two-argument branch of [parse_input], with the normalizer named. *)
Lemma parse_input_two arg0 arg1 :
  ipcalc.parse_input [arg0; arg1]
  = if startswith "/" (strip arg1) then Ok (strip arg0 ++ strip arg1)
    else match normalize_mask (strip arg1) with
         | Ok p => Ok (strip arg0 ++ "/" ++ str_int p)
         | Raise _ =>
             Raise (Exn ValueError (u "Máscara inválida: " ++ strip arg1))
         end.
Proof.
  unfold ipcalc.parse_input, normalize_mask.
  destruct (startswith "/" (strip arg1)); [reflexivity|].
  destruct (IPv4Network_str ("0.0.0.0/" ++ strip arg1) true); reflexivity.
Qed.

Lemma network_of_mask mask :
  contains "/" mask = false ->
  IPv4Network_str ("0.0.0.0/" ++ mask) true
  = ' (nm, p) <- _make_netmask (MaskStr mask) ;;
    Ok {| ipaddress.network_address := 0; netmask := nm; _prefixlen := p |}.
Proof.
  intros Hm. unfold IPv4Network_str, _split_addr_prefix, _split_optional_netmask.
  change ("0.0.0.0/" ++ mask) with ("0.0.0.0" ++ String "/" mask).
  rewrite (split_app_sep "/" "0.0.0.0" mask) by reflexivity.
  rewrite (split_no_sep "/" mask Hm).
  cbn [List.length Z.of_nat Pos.of_succ_nat Pos.succ Z.ltb Z.compare
       Pos.compare Pos.compare_cont bind].
  unfold IPv4Network_pair.
  replace (IPv4Address_str "0.0.0.0") with (@Ok kind Z 0)
    by (vm_compute; reflexivity).
  cbn [bind].
  destruct (_make_netmask (MaskStr mask)) as [[nm p]|k]; cbn [bind];
    [|reflexivity].
  rewrite Z.land_0_l. reflexivity.
Qed.

Lemma normalize_mask_make mask :
  contains "/" mask = false ->
  normalize_mask mask
  = ' (nm, p) <- _make_netmask (MaskStr mask) ;; Ok p.
Proof.
  intros Hm. unfold normalize_mask. rewrite (network_of_mask mask Hm).
  destruct (_make_netmask (MaskStr mask)) as [[nm p]|k]; reflexivity.
Qed.

(** A bare decimal number in [0, 32] is accepted as a prefix length. *)
Lemma normalize_mask_digits s :
  isascii_isdigit s = true ->
  Z.of_nat (String.length s) <= int_max_str_digits ->
  0 <= int_digits 0 s <= 32 ->
  normalize_mask s = Ok (int_digits 0 s).
Proof.
  intros Hd Hlen Hn.
  rewrite normalize_mask_make
    by (apply digits_no_sep; [reflexivity | apply isascii_isdigit_all, Hd]).
  unfold _make_netmask, _prefix_from_prefix_string, int_str, _max_prefixlen.
  rewrite Hd. cbn [negb].
  destruct (Z.ltb_spec int_max_str_digits (Z.of_nat (String.length s)));
    [lia|].
  cbn [try_except bind].
  destruct (Z.leb_spec 0 (int_digits 0 s)); [|lia].
  destruct (Z.leb_spec (int_digits 0 s) 32); [|lia].
  cbn [andb negb try_except bind].
  rewrite IPv4Address_int_Ok by (apply ip_int_from_prefix_range; lia).
  reflexivity.
Qed.

Lemma dotted_plain v :
  0 <= v < 2 ^ 32 ->
  contains "/" (dotted v) = false /\ has_space (dotted v) = false /\
  isascii_isdigit (dotted v) = false /\ startswith "/" (dotted v) = false.
Proof.
  intros Hv.
  assert (H : forall n, 0 <= n <= 255 ->
            negb (contains "/" (str_int n)) && negb (has_space (str_int n))
            && negb (startswith "/" (str_int n))
            && negb (str_int n =? "")%string = true).
  { intros n Hn.
    apply (forall_below
             (fun n => negb (contains "/" (str_int n))
                       && negb (has_space (str_int n))
                       && negb (startswith "/" (str_int n))
                       && negb (str_int n =? "")%string) 256);
      [vm_compute; reflexivity | lia]. }
  destruct (quad_of_octets v Hv) as (a & b & c & d & Ho & Ha & Hb & Hc & Hd & _).
  unfold dotted. rewrite Ho. cbn [map join].
  pose proof (H a Ha) as Fa. pose proof (H b Hb) as Fb.
  pose proof (H c Hc) as Fc. pose proof (H d Hd) as Fd.
  repeat match goal with
         | F : _ && _ = true |- _ => apply andb_true_iff in F as [F ?]
         | F : negb _ = true |- _ => apply negb_true_iff in F
         end.
  split; [|split; [|split]].
  - rewrite !contains_app. cbn [contains Ascii.eqb Bool.eqb orb].
    repeat match goal with F : contains _ _ = false |- _ => rewrite F; clear F end.
    reflexivity.
  - rewrite !has_space_app.
    replace (has_space ".") with false by (vm_compute; reflexivity).
    repeat match goal with F : has_space _ = false |- _ => rewrite F; clear F end.
    reflexivity.
  - destruct (isascii_isdigit _) eqn:Hdig; [|reflexivity].
    apply isascii_isdigit_all in Hdig.
    apply (digits_no_sep "." _ eq_refl) in Hdig.
    rewrite !contains_app in Hdig. cbn [contains Ascii.eqb Bool.eqb] in Hdig.
    rewrite orb_true_r in Hdig. discriminate Hdig.
  - destruct (str_int a) as [|ch r] eqn:Hsa.
    + match goal with F : (""  =? "")%string = false |- _ => discriminate F end.
    + match goal with F : startswith _ (String ch r) = false |- _ => exact F end.
Qed.

(** On the dotted notation of a 32-bit value the normalizer tries the
    value as a netmask and then its complement. *)
Lemma normalize_mask_dotted v :
  0 <= v < 2 ^ 32 ->
  normalize_mask (dotted v)
  = match _prefix_from_ip_int v with
    | Ok p => Ok p
    | Raise _ =>
        match _prefix_from_ip_int (Z.lxor v _ALL_ONES) with
        | Ok p => Ok p
        | Raise _ => Raise NetmaskValueError
        end
    end.
Proof.
  intros Hv.
  destruct (dotted_plain v Hv) as (Hslash & _ & Hdig & _).
  rewrite (normalize_mask_make _ Hslash).
  unfold _make_netmask, _prefix_from_prefix_string, _report_invalid_netmask.
  rewrite Hdig. cbn [negb try_except is_NetmaskValueError].
  unfold _prefix_from_ip_string.
  rewrite (ip_int_from_dotted v Hv). cbn [try_except bind].
  destruct (_prefix_from_ip_int v) as [p|k] eqn:H1.
  - cbn [bind].
    rewrite IPv4Address_int_Ok
      by (apply ip_int_from_prefix_range;
          eapply prefix_from_ip_int_range; [|eassumption]; lia).
    reflexivity.
  - rewrite (prefix_from_ip_int_raises v k Hv H1). cbn [is_ValueError].
    pose proof (lxor_ones_range v Hv) as Hx.
    destruct (_prefix_from_ip_int (Z.lxor v _ALL_ONES)) as [p|k'] eqn:H2.
    + cbn [try_except bind].
      rewrite IPv4Address_int_Ok
        by (apply ip_int_from_prefix_range;
            eapply prefix_from_ip_int_range; [|eassumption]; lia).
      reflexivity.
    + rewrite (prefix_from_ip_int_raises _ k' Hx H2).
      reflexivity.
Qed.

(** A hostmask, [n] zeros followed by ones, normalizes to [n]. *)
Lemma normalize_mask_hostmask n :
  0 < n < 32 -> normalize_mask (dotted (zeros_then_ones n)) = Ok n.
Proof.
  intros Hn.
  assert (H : (if (0 <? n) && (n <? 32) then
                 match normalize_mask (dotted (zeros_then_ones n)) with
                 | Ok p => p =? n
                 | Raise _ => false
                 end
               else true) = true).
  { apply (forall_below
             (fun n => if (0 <? n) && (n <? 32) then
                         match normalize_mask (dotted (zeros_then_ones n)) with
                         | Ok p => p =? n
                         | Raise _ => false
                         end
                       else true) 33);
      [vm_compute; reflexivity | lia]. }
  destruct (Z.ltb_spec 0 n); [|lia]. destruct (Z.ltb_spec n 32); [|lia].
  cbn [andb] in H.
  destruct (normalize_mask (dotted (zeros_then_ones n))) as [p|]; [|discriminate H].
  apply Z.eqb_eq in H. congruence.
Qed.

End Normalizer.

(** ** What [summarize] computes *)

Section Summary.

Import ipaddress.

Lemma to_bytes4_Ok a : 0 <= a < 2 ^ 32 -> to_bytes4 a = Ok (octets a).
Proof.
  intros Ha. unfold to_bytes4.
  destruct (Z.ltb_spec a 0); [lia|].
  destruct (Z.leb_spec (2 ^ 32) a); [lia|]. reflexivity.
Qed.

Lemma str_addr_Ok a : 0 <= a < 2 ^ 32 -> ipcalc.str_addr a = Ok (dotted a).
Proof.
  intros Ha. unfold ipcalc.str_addr, _string_from_ip_int.
  rewrite to_bytes4_Ok by exact Ha. reflexivity.
Qed.

Variable iface : IPv4Interface.
Hypothesis Hwf : well_formed iface.

Let a := _ip iface.
Let n := network iface.
Let p := _prefixlen n.
Let nm := _ip_int_from_prefix p.
Let net := Z.land a nm.
Let hm := Z.lxor nm _ALL_ONES.
Let bc := Z.lor net hm.

Local Lemma wf_a : 0 <= a < 2 ^ 32.
Proof. apply Hwf. Qed.

Local Lemma wf_p : 0 <= p <= 32.
Proof. apply Hwf. Qed.

Local Lemma wf_netmask : netmask n = nm.
Proof. apply Hwf. Qed.

Local Lemma wf_network : ipaddress.network_address n = net.
Proof. unfold net. rewrite <- wf_netmask. apply Hwf. Qed.

Local Lemma net_eq : net = a - a mod 2 ^ (32 - p).
Proof. apply land_netmask; [apply wf_a | apply wf_p]. Qed.

Local Lemma hm_eq : hm = 2 ^ (32 - p) - 1.
Proof. apply hostmask_eq, wf_p. Qed.

Local Lemma bc_eq : bc = net + 2 ^ (32 - p) - 1.
Proof.
  unfold bc, net, hm, nm. rewrite lor_hostmask by (apply wf_a || apply wf_p).
  rewrite land_netmask by (apply wf_a || apply wf_p). reflexivity.
Qed.

Local Lemma block_pos : 0 < 2 ^ (32 - p).
Proof. pose proof wf_p. apply Z.pow_pos_nonneg; lia. Qed.

Local Lemma net_range : 0 <= net /\ net + 2 ^ (32 - p) <= 2 ^ 32.
Proof.
  rewrite net_eq. pose proof wf_a as Ha. pose proof wf_p as Hp.
  pose proof (block_end_bound a p Ha Hp).
  pose proof (block_start_bound a (2 ^ (32 - p)) (proj1 Ha) block_pos).
  lia.
Qed.

Lemma hostmask_Ok : hostmask n = Ok hm.
Proof.
  unfold hostmask. rewrite wf_netmask.
  apply IPv4Address_int_Ok. fold hm. rewrite hm_eq.
  pose proof wf_p. pose proof block_pos.
  assert (2 ^ (32 - p) <= 2 ^ 32) by (apply Z.pow_le_mono_r; lia). lia.
Qed.

Lemma broadcast_address_Ok : broadcast_address n = Ok bc.
Proof.
  unfold broadcast_address. rewrite hostmask_Ok. cbn [bind].
  rewrite wf_network. apply IPv4Address_int_Ok. fold bc.
  rewrite bc_eq. pose proof net_range. pose proof block_pos. lia.
Qed.

Lemma num_addresses_Ok : num_addresses n = Ok (2 ^ (32 - p)).
Proof.
  unfold num_addresses. rewrite broadcast_address_Ok. cbn [bind].
  rewrite wf_network, bc_eq. f_equal. lia.
Qed.

(** Below /31 the generator yields every address strictly between the
    network address and the broadcast address, and no constructor fails. *)
Lemma hosts_Ok : p <= 30 -> hosts n = Ok (range (net + 1) bc).
Proof.
  intros Hp. unfold hosts, _max_prefixlen. fold p.
  destruct (Z.eqb_spec p (32 - 1)) as [|_]; [lia|].
  destruct (Z.eqb_spec p 32) as [|_]; [lia|].
  rewrite broadcast_address_Ok. cbn [bind]. rewrite wf_network.
  apply mapM_id, range_Forall. intros x Hx.
  apply IPv4Address_int_Ok.
  rewrite bc_eq in Hx. pose proof net_range. lia.
Qed.

(** The netmask of the specification (a shift of [0xFFFFFFFF] cut to 32
    bits) is the netmask of the library (the complement of a right shift). *)
Lemma spec_netmask_eq q :
  0 <= q <= 32 ->
  (if q =? 0 then 0 else Z.land (Z.shiftl 0xFFFFFFFF (32 - q)) 0xFFFFFFFF)
  = _ip_int_from_prefix q.
Proof.
  intros Hq. apply Z.eqb_eq.
  apply (forall_below
           (fun q => (if q =? 0 then 0
                      else Z.land (Z.shiftl 0xFFFFFFFF (32 - q)) 0xFFFFFFFF)
                     =? _ip_int_from_prefix q) 33);
    [vm_compute; reflexivity | lia].
Qed.

Local Lemma block_ge_4 : p <= 30 -> 4 <= 2 ^ (32 - p).
Proof.
  intros Hp. pose proof wf_p. change 4 with (2 ^ 2).
  apply Z.pow_le_mono_r; lia.
Qed.

(** [summarize], on the interface that its argument parses to, returns the
    summary of the direct formulas. *)
Lemma summarize_of_interface target :
  IPv4Interface_str target = Ok iface ->
  ipcalc.summarize target = Ok (subnet_summary a p).
Proof.
  intros Hparse. unfold ipcalc.summarize.
  rewrite Hparse. cbn [ipcalc.except_Exception bind].
  unfold ip. fold a. rewrite (IPv4Address_int_Ok a wf_a). cbn [bind].
  fold n. rewrite broadcast_address_Ok, num_addresses_Ok. cbn [bind].
  unfold prefixlen. fold p. rewrite wf_netmask, wf_network.
  change (Z.lxor nm 0xFFFFFFFF) with hm.
  pose proof wf_a as Ha. pose proof wf_p as Hp.
  pose proof net_range as Hnet. pose proof block_pos as Hk.
  pose proof bc_eq as Hbc. pose proof hm_eq as Hhm.
  assert (Hnm : 0 <= nm < 2 ^ 32) by (apply ip_int_from_prefix_range; exact Hp).
  assert (Hk32 : 2 ^ (32 - p) <= 2 ^ 32) by (apply Z.pow_le_mono_r; lia).
  unfold subnet_summary.
  rewrite spec_netmask_eq by exact Hp. fold nm.
  change (Z.lxor nm 0xFFFFFFFF) with hm. fold net. fold bc.
  rewrite Z.shiftl_1_l.
  destruct (Z.leb_spec 31 p) as [Hge|Hlt].
  - cbn [bind ipcalc.str_or_NA].
    rewrite (IPv4Address_int_Ok hm) by lia. cbn [bind].
    rewrite !str_addr_Ok by lia. cbn [bind]. reflexivity.
  - assert (Hp30 : p <= 30) by lia.
    pose proof (block_ge_4 Hp30) as H4.
    rewrite (hosts_Ok Hp30). cbn [bind].
    rewrite range_length.
    destruct (Z.ltb_spec 0 (Z.of_nat (Z.to_nat (bc - (net + 1))))) as [_|]; [|lia].
    rewrite getitem_range_first, getitem_range_last by lia.
    cbn [bind ipcalc.str_or_NA].
    rewrite (IPv4Address_int_Ok hm) by lia. cbn [bind].
    rewrite !str_addr_Ok by lia. cbn [bind].
    replace (Z.of_nat (Z.to_nat (bc - (net + 1)))) with (2 ^ (32 - p) - 2) by lia.
    reflexivity.
Qed.

(** The fields of the summary, in terms of the network that the library
    built. *)
Lemma subnet_summary_network :
  ipcalc.network_address (subnet_summary a p)
  = dotted (ipaddress.network_address n) /\
  ipcalc.netmask (subnet_summary a p) = dotted (netmask n) /\
  ipcalc.broadcast (subnet_summary a p)
  = dotted (Z.lor (ipaddress.network_address n)
                  (Z.lxor (netmask n) 0xFFFFFFFF)) /\
  ipcalc.wildcard (subnet_summary a p) = dotted (Z.lxor (netmask n) 0xFFFFFFFF).
Proof.
  unfold subnet_summary.
  cbn [ipcalc.network_address ipcalc.netmask ipcalc.broadcast ipcalc.wildcard].
  rewrite spec_netmask_eq by apply wf_p.
  rewrite wf_network, wf_netmask. fold nm. fold net. auto.
Qed.

Lemma subnet_summary_usable :
  p <= 30 ->
  ipcalc.num_usable (subnet_summary a p) = 2 ^ (32 - p) - 2 /\
  ipcalc.first_usable (subnet_summary a p)
  = dotted (ipaddress.network_address n + 1) /\
  ipcalc.last_usable (subnet_summary a p)
  = dotted (Z.lor (ipaddress.network_address n)
                  (Z.lxor (netmask n) 0xFFFFFFFF) - 1) /\
  ipcalc.gateway_suggestion (subnet_summary a p)
  = dotted (ipaddress.network_address n + 1).
Proof.
  intros Hp. unfold subnet_summary.
  cbn [ipcalc.num_usable ipcalc.first_usable ipcalc.last_usable
       ipcalc.gateway_suggestion].
  destruct (Z.leb_spec 31 p) as [|_]; [lia|].
  rewrite spec_netmask_eq by apply wf_p.
  rewrite wf_network, wf_netmask, Z.shiftl_1_l. fold nm. fold net. auto.
Qed.

End Summary.

(** ** Interfaces in CIDR notation *)

Section Cidr.

Import ipaddress.

(** [(x + sep + y).split(sep) == x.split(sep) + y.split(sep)] *)
Lemma split_app sep x y :
  split sep (x ++ String sep y) = (split sep x ++ split sep y)%list.
Proof.
  induction x as [|c r IH]; cbn [split append].
  - rewrite Ascii.eqb_refl. reflexivity.
  - destruct (Ascii.eqb c sep); rewrite IH; [reflexivity|].
    pose proof (split_nonempty sep r) as Hnil.
    destruct (split sep r) as [|h t]; [contradiction | reflexivity].
Qed.

Lemma split_length_sep sep x :
  contains sep x = true -> (2 <= List.length (split sep x))%nat.
Proof.
  induction x as [|c r IH]; cbn [contains split]; [discriminate|].
  destruct (Ascii.eqb c sep); cbn [orb].
  - intros _. pose proof (split_nonempty sep r).
    destruct (split sep r); [contradiction | cbn [List.length]; lia].
  - intros H. specialize (IH H).
    destruct (split sep r); cbn [List.length] in *; lia.
Qed.

Lemma str_prefix_plain p :
  0 <= p <= 32 ->
  contains "/" (str_int p) = false /\ has_space (str_int p) = false /\
  _prefix_from_prefix_string (str_int p) = Ok p.
Proof.
  intros Hp.
  assert (H : negb (contains "/" (str_int p)) && negb (has_space (str_int p))
              && match _prefix_from_prefix_string (str_int p) with
                 | Ok q => q =? p
                 | Raise _ => false
                 end = true).
  { apply (forall_below
             (fun p => negb (contains "/" (str_int p))
                       && negb (has_space (str_int p))
                       && match _prefix_from_prefix_string (str_int p) with
                          | Ok q => q =? p
                          | Raise _ => false
                          end) 33);
      [vm_compute; reflexivity | lia]. }
  apply andb_true_iff in H as [H H3]. apply andb_true_iff in H as [H1 H2].
  apply negb_true_iff in H1, H2.
  destruct (_prefix_from_prefix_string (str_int p)) as [q|]; [|discriminate H3].
  apply Z.eqb_eq in H3. subst q. auto.
Qed.

Lemma make_netmask_prefix p :
  0 <= p <= 32 ->
  _make_netmask (MaskStr (str_int p)) = Ok (_ip_int_from_prefix p, p).
Proof.
  intros Hp. destruct (str_prefix_plain p Hp) as (_ & _ & Hs).
  unfold _make_netmask. rewrite Hs. cbn [try_except bind].
  rewrite IPv4Address_int_Ok by (apply ip_int_from_prefix_range; exact Hp).
  reflexivity.
Qed.

Lemma split_cidr addr p :
  contains "/" addr = false -> 0 <= p <= 32 ->
  _split_addr_prefix (addr ++ "/" ++ str_int p) = Ok (addr, MaskStr (str_int p)).
Proof.
  intros Hslash Hp. destruct (str_prefix_plain p Hp) as (Hs & _ & _).
  unfold _split_addr_prefix, _split_optional_netmask.
  change (addr ++ "/" ++ str_int p) with (addr ++ String "/" (str_int p)).
  rewrite (split_app_sep "/" addr _ Hslash), (split_no_sep "/" _ Hs).
  reflexivity.
Qed.

(** The interface of an address text and a prefix length in decimal. *)
Lemma interface_of_cidr addr p a :
  contains "/" addr = false -> _ip_int_from_string addr = Ok a ->
  0 <= p <= 32 ->
  IPv4Interface_str (addr ++ "/" ++ str_int p)
  = Ok {| _ip := a;
          network := {| ipaddress.network_address := Z.land a (_ip_int_from_prefix p);
                        netmask := _ip_int_from_prefix p;
                        _prefixlen := p |} |}.
Proof.
  intros Hslash Ha Hp.
  pose proof (ip_int_from_string_range _ _ Ha) as Hr.
  unfold IPv4Interface_str. rewrite (split_cidr addr p Hslash Hp).
  cbn [bind]. unfold IPv4Network_pair, IPv4Address_str.
  rewrite Hslash, Ha. cbn [bind].
  rewrite (make_netmask_prefix p Hp). cbn [bind].
  destruct (Z.eqb_spec (Z.land a (_ip_int_from_prefix p)) a) as [He|Hne];
    cbn [negb].
  - cbn [bind]. rewrite He. reflexivity.
  - rewrite IPv4Address_int_Ok; [reflexivity|].
    rewrite (land_netmask a p Hr Hp).
    assert (Hk : 0 < 2 ^ (32 - p)) by (apply Z.pow_pos_nonneg; lia).
    pose proof (block_start_bound a _ (proj1 Hr) Hk). lia.
Qed.

(** Every pair of a 32-bit address and a prefix length in [0, 32] is the
    interface of some text, its CIDR notation. *)
Lemma interface_of_pair a p :
  0 <= a < 2 ^ 32 -> 0 <= p <= 32 ->
  IPv4Interface_str (dotted a ++ "/" ++ str_int p)
  = Ok {| _ip := a;
          network := {| ipaddress.network_address := Z.land a (_ip_int_from_prefix p);
                        netmask := _ip_int_from_prefix p;
                        _prefixlen := p |} |}.
Proof.
  intros Ha Hp. destruct (dotted_plain a Ha) as (Hslash & _).
  apply interface_of_cidr; [exact Hslash | apply ip_int_from_dotted, Ha | exact Hp].
Qed.

(** A text that ends in '/' and a decimal prefix length has that prefix
    length when it parses. *)
Lemma cidr_prefixlen addr p iface :
  0 <= p <= 32 ->
  IPv4Interface_str (addr ++ "/" ++ str_int p) = Ok iface ->
  prefixlen (network iface) = p.
Proof.
  intros Hp H. destruct (contains "/" addr) eqn:Hslash.
  - exfalso. unfold IPv4Interface_str, _split_addr_prefix,
      _split_optional_netmask in H.
    change (addr ++ "/" ++ str_int p) with (addr ++ String "/" (str_int p)) in H.
    rewrite split_app, length_app in H.
    pose proof (split_length_sep "/" addr Hslash) as H2.
    pose proof (split_nonempty "/" (str_int p)) as H1.
    destruct (split "/" (str_int p)) as [|h t]; [contradiction|].
    cbn [List.length] in H.
    destruct (Z.ltb_spec 2 (Z.of_nat (List.length (split "/" addr) + S (List.length t))))
      as [_|Hle]; [|lia].
    discriminate H.
  - apply IPv4Interface_str_inv in H as (addr' & m & Hs & _ & Hm & _).
    rewrite (split_cidr addr p Hslash Hp) in Hs.
    assert (Hm' : m = MaskStr (str_int p)) by congruence. subst m.
    rewrite (make_netmask_prefix p Hp) in Hm.
    unfold prefixlen. congruence.
Qed.

End Cidr.

(** * The claims *)

Section Claims.

Import ipaddress.

(** [summarize] succeeds exactly when the library parses its argument. *)
Lemma summarize_eq target :
  ipcalc.summarize target
  = match IPv4Interface_str target with
    | Ok iface =>
        Ok (subnet_summary (_ip iface) (prefixlen (network iface)))
    | Raise _ => Raise (Exn ValueError (u "Entrada inválida: " ++ target))
    end.
Proof.
  destruct (IPv4Interface_str target) as [iface|k] eqn:H.
  - apply summarize_of_interface; [|exact H].
    eapply IPv4Interface_well_formed; eassumption.
  - unfold ipcalc.summarize. rewrite H. reflexivity.
Qed.

(** C1: for every input whose prefix length is in [0, 30], [summarize]
    reports [num_usable = total_addresses - 2], the first usable host is
    the network address plus one, the last usable host is the broadcast
    address minus one and the suggested gateway is the first usable host;
    [num_usable] is the length of the list that [hosts()] yields, which
    holds the addresses strictly between network and broadcast. *)
Theorem summarize_usable_range target iface :
  IPv4Interface_str target = Ok iface ->
  0 <= prefixlen (network iface) <= 30 ->
  let net := ipaddress.network_address (network iface) in
  let bcast := Z.lor net (Z.lxor (netmask (network iface)) 0xFFFFFFFF) in
  exists r hosts_list,
    ipcalc.summarize target = Ok r /\
    hosts (network iface) = Ok hosts_list /\
    hosts_list = range (net + 1) bcast /\
    ipcalc.network_address r = dotted net /\
    ipcalc.broadcast r = dotted bcast /\
    ipcalc.num_usable r = Z.of_nat (List.length hosts_list) /\
    ipcalc.num_usable r = ipcalc.total_addresses r - 2 /\
    ipcalc.first_usable r = dotted (net + 1) /\
    ipcalc.last_usable r = dotted (bcast - 1) /\
    ipcalc.gateway_suggestion r = ipcalc.first_usable r.
Proof.
  intros Hparse [_ Hp] net bcast. unfold prefixlen in Hp.
  pose proof (IPv4Interface_well_formed _ _ Hparse) as Hwf.
  pose proof (summarize_of_interface iface Hwf target Hparse) as Hsum.
  destruct (subnet_summary_network iface Hwf) as (Hnet & _ & Hbc & _).
  destruct (subnet_summary_usable iface Hwf Hp) as (Hnum & Hfirst & Hlast & Hgw).
  destruct Hwf as (Ha & Hp' & Hnm & Hna).
  pose proof (hosts_Ok iface (conj Ha (conj Hp' (conj Hnm Hna))) Hp) as Hhosts.
  rewrite <- Hnm, <- Hna in Hhosts.
  exists (subnet_summary (_ip iface) (_prefixlen (network iface))).
  exists (range (net + 1) bcast).
  split; [exact Hsum|]. split; [exact Hhosts|]. split; [reflexivity|].
  split; [exact Hnet|]. split; [exact Hbc|].
  assert (Hblock : bcast = net + 2 ^ (32 - _prefixlen (network iface)) - 1).
  { unfold bcast, net. rewrite Hna, Hnm.
    change 0xFFFFFFFF with _ALL_ONES.
    rewrite (lor_hostmask _ _ Ha Hp'), (land_netmask _ _ Ha Hp'). lia. }
  assert (4 <= 2 ^ (32 - _prefixlen (network iface))).
  { change 4 with (2 ^ 2). apply Z.pow_le_mono_r; lia. }
  split; [rewrite Hnum, range_length; lia|].
  split.
  { rewrite Hnum. unfold subnet_summary. cbn [ipcalc.total_addresses].
    rewrite Z.shiftl_1_l. reflexivity. }
  split; [exact Hfirst|]. split; [exact Hlast|].
  rewrite Hgw, Hfirst. reflexivity.
Qed.

Lemma summarize_usable_range_witness :
  IPv4Interface_str "192.168.1.10/24" = Ok iface_24 /\
  exists r hosts_list,
    ipcalc.summarize "192.168.1.10/24" = Ok r /\
    hosts (network iface_24) = Ok hosts_list /\
    hosts_list = range (3232235776 + 1) 3232236031 /\
    ipcalc.network_address r = dotted 3232235776 /\
    ipcalc.broadcast r = dotted 3232236031 /\
    ipcalc.num_usable r = Z.of_nat (List.length hosts_list) /\
    ipcalc.num_usable r = ipcalc.total_addresses r - 2 /\
    ipcalc.first_usable r = dotted (3232235776 + 1) /\
    ipcalc.last_usable r = dotted (3232236031 - 1) /\
    ipcalc.gateway_suggestion r = ipcalc.first_usable r.
Proof.
  split; [vm_compute; reflexivity|].
  apply (summarize_usable_range "192.168.1.10/24" iface_24).
  - vm_compute. reflexivity.
  - cbn. lia.
Defined.

(** C2: for every input whose prefix length is 31 or 32, [summarize]
    reports [num_usable = 0] and renders the first host, the last host and
    the suggested gateway as ["N/A"]. *)
Theorem summarize_point_to_point target iface :
  IPv4Interface_str target = Ok iface ->
  prefixlen (network iface) = 31 \/ prefixlen (network iface) = 32 ->
  exists r,
    ipcalc.summarize target = Ok r /\
    ipcalc.num_usable r = 0 /\
    ipcalc.first_usable r = "N/A" /\
    ipcalc.last_usable r = "N/A" /\
    ipcalc.gateway_suggestion r = "N/A".
Proof.
  intros Hparse Hp. unfold prefixlen in Hp.
  pose proof (IPv4Interface_well_formed _ _ Hparse) as Hwf.
  exists (subnet_summary (_ip iface) (_prefixlen (network iface))).
  split; [apply summarize_of_interface; assumption|].
  unfold subnet_summary.
  cbn [ipcalc.num_usable ipcalc.first_usable ipcalc.last_usable
       ipcalc.gateway_suggestion].
  destruct (Z.leb_spec 31 (_prefixlen (network iface))) as [_|]; [|lia].
  auto.
Qed.

Lemma summarize_point_to_point_witness :
  IPv4Interface_str "192.168.1.1/31" = Ok iface_31 /\
  exists r,
    ipcalc.summarize "192.168.1.1/31" = Ok r /\
    ipcalc.num_usable r = 0 /\
    ipcalc.first_usable r = "N/A" /\
    ipcalc.last_usable r = "N/A" /\
    ipcalc.gateway_suggestion r = "N/A".
Proof.
  split; [vm_compute; reflexivity|].
  apply (summarize_point_to_point "192.168.1.1/31" iface_31).
  - vm_compute. reflexivity.
  - left. reflexivity.
Defined.



(** C6: for every prefix length [p] in [0, 32], written after any 32-bit
    address, the reported [total_addresses] is exactly [2 ^ (32 - p)]; for
    [p = 0] it is 4294967296.  The same holds for every other text that
    parses to the prefix length [p], such as one with a dotted mask. *)
Theorem total_addresses_pow2 a p :
  0 <= a < 2 ^ 32 -> 0 <= p <= 32 ->
  (exists r,
      ipcalc.summarize (dotted a ++ "/" ++ str_int p) = Ok r /\
      ipcalc.input_ip r = dotted a /\
      ipcalc.prefix r = "/" ++ str_int p /\
      ipcalc.total_addresses r = 2 ^ (32 - p) /\
      (p = 0 -> ipcalc.total_addresses r = 4294967296)) /\
  (forall target iface,
      IPv4Interface_str target = Ok iface ->
      prefixlen (network iface) = p ->
      num_addresses (network iface) = Ok (2 ^ (32 - p)) /\
      exists r,
        ipcalc.summarize target = Ok r /\
        ipcalc.total_addresses r = 2 ^ (32 - p)).
Proof.
  intros Ha Hp. split.
  - exists (subnet_summary a p).
    split.
    { rewrite summarize_eq, (interface_of_pair a p Ha Hp). reflexivity. }
    split; [reflexivity|]. split; [reflexivity|].
    unfold subnet_summary. cbn [ipcalc.total_addresses].
    rewrite Z.shiftl_1_l. split; [reflexivity|].
    intros ->. reflexivity.
  - intros target iface Hparse Hpl. unfold prefixlen in Hpl.
    pose proof (IPv4Interface_well_formed _ _ Hparse) as Hwf.
    split; [rewrite <- Hpl; apply num_addresses_Ok; exact Hwf|].
    exists (subnet_summary (_ip iface) (_prefixlen (network iface))).
    split; [apply summarize_of_interface; assumption|].
    unfold subnet_summary. cbn [ipcalc.total_addresses].
    rewrite Z.shiftl_1_l, Hpl. reflexivity.
Qed.

Lemma total_addresses_pow2_witness :
  0 <= 3232235786 < 2 ^ 32 /\ 0 <= 24 <= 32 /\
  (exists r,
      ipcalc.summarize "192.168.1.10/24" = Ok r /\
      ipcalc.prefix r = "/24" /\
      ipcalc.total_addresses r = 256) /\
  (exists r,
      ipcalc.summarize "192.168.1.10/255.255.255.0" = Ok r /\
      ipcalc.total_addresses r = 256).
Proof.
  assert (Ha : 0 <= 3232235786 < 2 ^ 32) by lia.
  assert (Hp : 0 <= 24 <= 32) by lia.
  split; [exact Ha|]. split; [exact Hp|].
  destruct (total_addresses_pow2 3232235786 24 Ha Hp)
    as [(r & Hs & _ & Hpre & Ht & _) Hall].
  split.
  - exists r.
    change (dotted 3232235786 ++ "/" ++ str_int 24) with "192.168.1.10/24" in Hs.
    split; [exact Hs|]. split; [exact Hpre | exact Ht].
  - destruct (Hall "192.168.1.10/255.255.255.0" iface_24) as (_ & r' & Hs' & Ht').
    + vm_compute. reflexivity.
    + reflexivity.
    + exists r'. split; [exact Hs' | exact Ht'].
Defined.

(** C7: for every prefix length in [0, 32] and every address, the reported
    wildcard is [netmask XOR 0xFFFFFFFF], which is the complement of the
    netmask on each of the 32 bits, and
    [network_address AND wildcard = 0]. *)
Theorem wildcard_complement target iface :
  IPv4Interface_str target = Ok iface ->
  let n := network iface in
  let wild := Z.lxor (netmask n) 0xFFFFFFFF in
  (forall i, 0 <= i < 32 -> Z.testbit wild i = negb (Z.testbit (netmask n) i)) /\
  0 <= wild < 2 ^ 32 /\
  Z.land (ipaddress.network_address n) wild = 0 /\
  exists r,
    ipcalc.summarize target = Ok r /\
    ipcalc.netmask r = dotted (netmask n) /\
    ipcalc.wildcard r = dotted wild.
Proof.
  intros Hparse n wild.
  pose proof (IPv4Interface_well_formed _ _ Hparse) as Hwf.
  pose proof (summarize_of_interface iface Hwf target Hparse) as Hsum.
  destruct (subnet_summary_network iface Hwf) as (_ & Hnms & _ & Hws).
  destruct Hwf as (Ha & Hp & Hnm & Hna).
  fold n in Hp, Hnm, Hna, Hsum, Hnms, Hws.
  split.
  { intros i Hi. unfold wild. rewrite Z.lxor_spec.
    change 0xFFFFFFFF with (Z.ones 32).
    rewrite Z.ones_spec_low by exact Hi. apply xorb_true_r. }
  split.
  { unfold wild. change 0xFFFFFFFF with _ALL_ONES.
    apply lxor_ones_range. rewrite Hnm.
    apply ip_int_from_prefix_range. exact Hp. }
  split.
  { unfold wild. rewrite Hna, Hnm. change 0xFFFFFFFF with _ALL_ONES.
    apply land_land_disjoint, netmask_hostmask_disjoint. exact Hp. }
  exists (subnet_summary (_ip iface) (_prefixlen n)).
  split; [exact Hsum|]. split; [exact Hnms | exact Hws].
Qed.

Lemma wildcard_complement_witness :
  IPv4Interface_str "192.168.1.10/24" = Ok iface_24 /\
  Z.land 3232235776 (Z.lxor 4294967040 0xFFFFFFFF) = 0 /\
  exists r,
    ipcalc.summarize "192.168.1.10/24" = Ok r /\
    ipcalc.netmask r = dotted 4294967040 /\
    ipcalc.wildcard r = dotted (Z.lxor 4294967040 0xFFFFFFFF).
Proof.
  split; [vm_compute; reflexivity|].
  assert (H : IPv4Interface_str "192.168.1.10/24" = Ok iface_24)
    by (vm_compute; reflexivity).
  destruct (wildcard_complement "192.168.1.10/24" iface_24 H)
    as (_ & _ & Hland & Hr).
  split; [exact Hland | exact Hr].
Defined.

(** C3, as stated, fails: the dotted mask ["0.0.0.255"] has the value 255,
    which is not of the form 1^n 0^(32-n), and the normalizer accepts it
    (as a hostmask) with prefix length 24. *)
Lemma hostmask_is_accepted :
  _ip_int_from_string "0.0.0.255" = Ok 255 /\
  (forall n, 0 <= n <= 32 -> 255 <> ones_then_zeros n) /\
  normalize_mask "0.0.0.255" = Ok 24 /\
  ipcalc.parse_input ["10.0.0.1"; "0.0.0.255"] = Ok "10.0.0.1/24".
Proof.
  split; [vm_compute; reflexivity|].
  split; [|split; vm_compute; reflexivity].
  intros n Hn Heq.
  assert (H : negb (255 =? ones_then_zeros n) = true).
  { apply (forall_below (fun n => negb (255 =? ones_then_zeros n)) 33);
      [vm_compute; reflexivity | lia]. }
  apply negb_true_iff, Z.eqb_neq in H. contradiction.
Qed.

(** C3, amended: a dotted-decimal mask given as the second argument whose
    32-bit value is neither of the form 1^n 0^(32-n) nor of the form
    0^n 1^(32-n), for n in [0, 32], makes the normalizer fail, and
    [parse_input] raises [ValueError] with the text
    ["Máscara inválida: "] followed by the mask; no prefix length is
    produced. *)
Theorem noncontiguous_mask_rejected arg0 arg1 v :
  _ip_int_from_string (strip arg1) = Ok v ->
  (forall n, 0 <= n <= 32 -> v <> ones_then_zeros n) ->
  (forall n, 0 <= n <= 32 -> v <> zeros_then_ones n) ->
  normalize_mask (strip arg1) = Raise NetmaskValueError /\
  ipcalc.parse_input [arg0; arg1]
  = Raise (Exn ValueError (u "Máscara inválida: " ++ strip arg1)).
Proof.
  intros Hparse Hnet Hhost.
  pose proof (ip_int_from_string_range _ _ Hparse) as Hv.
  pose proof (ip_int_from_string_dotted _ _ Hparse) as Hdot.
  assert (Hnorm : normalize_mask (strip arg1) = Raise NetmaskValueError).
  { rewrite <- Hdot, (normalize_mask_dotted v Hv).
    destruct (_prefix_from_ip_int v) as [p|k] eqn:H1.
    - apply (prefix_from_ip_int_sound v p Hv) in H1 as [Hp Heq].
      exfalso. exact (Hnet p Hp Heq).
    - destruct (_prefix_from_ip_int (Z.lxor v _ALL_ONES)) as [p|k'] eqn:H2;
        [|reflexivity].
      apply (prefix_from_ip_int_sound _ p (lxor_ones_range v Hv)) in H2
        as [Hp Heq].
      exfalso. apply (Hhost p Hp).
      rewrite <- (hostmask_pattern p Hp), <- Heq.
      symmetry. apply lxor_ones_involutive. }
  split; [exact Hnorm|].
  rewrite parse_input_two, Hnorm.
  destruct (dotted_plain v Hv) as (_ & _ & _ & Hstart).
  rewrite Hdot in Hstart. rewrite Hstart. reflexivity.
Qed.

Lemma noncontiguous_mask_rejected_witness :
  _ip_int_from_string (strip "255.0.255.0") = Ok 4278255360 /\
  normalize_mask (strip "255.0.255.0") = Raise NetmaskValueError /\
  ipcalc.parse_input ["10.0.0.1"; "255.0.255.0"]
  = Raise (Exn ValueError (u "Máscara inválida: " ++ strip "255.0.255.0")).
Proof.
  split; [vm_compute; reflexivity|].
  apply (noncontiguous_mask_rejected "10.0.0.1" "255.0.255.0" 4278255360).
  - vm_compute. reflexivity.
  - intros n Hn Heq.
    assert (H : negb (4278255360 =? ones_then_zeros n) = true)
      by (apply (forall_below (fun n => negb (4278255360 =? ones_then_zeros n)) 33);
          [vm_compute; reflexivity | lia]).
    apply negb_true_iff, Z.eqb_neq in H. contradiction.
  - intros n Hn Heq.
    assert (H : negb (4278255360 =? zeros_then_ones n) = true)
      by (apply (forall_below (fun n => negb (4278255360 =? zeros_then_ones n)) 33);
          [vm_compute; reflexivity | lia]).
    apply negb_true_iff, Z.eqb_neq in H. contradiction.
Defined.

(** C4, as stated, fails: with three arguments, and with one argument
    that has no '/', the script exits with code 2, not 1. *)
Lemma usage_error_exits_with_2 :
  ipcalc.main ["ipcalc.py"; "10.0.0.1"; "255.255.255.0"; "extra"]
  = ipcalc.Exit
      ["Erro: Use: script.py <IP/CIDR>  OU  script.py <IP> <MASCARA>"] 2 /\
  ipcalc.exit_code
    (ipcalc.main ["ipcalc.py"; "10.0.0.1"; "255.255.255.0"; "extra"]) <> 1 /\
  ipcalc.exit_code (ipcalc.main ["ipcalc.py"; "192.168.1.10"]) = 2 /\
  ipcalc.exit_code (ipcalc.main ["ipcalc.py"; "192.168.1.10"]) <> 1.
Proof.
  split; [vm_compute; reflexivity|].
  split; [vm_compute; discriminate|].
  split; [vm_compute; reflexivity | vm_compute; discriminate].
Qed.

(** C4, amended: an invocation with more than two arguments, or with a
    single argument that contains no '/', makes [parse_input] raise
    [ValueError]; the script prints the one line ["Erro: "] followed by the
    text of the exception and exits with code 2.  Exit code 1 is that of
    an invocation with no argument. *)
Theorem usage_error_exit_code prog args :
  (2 < List.length args)%nat \/
  (exists a, args = [a] /\ contains "/" a = false) ->
  exists msg,
    ipcalc.parse_input args = Raise (Exn ValueError msg) /\
    ipcalc.main (prog :: args) = ipcalc.Exit ["Erro: " ++ msg] 2 /\
    ipcalc.exit_code (ipcalc.main [prog]) = 1.
Proof.
  intros [Hlen | (a & -> & Hslash)].
  - destruct args as [|a [|b [|c rest]]]; cbn [List.length] in Hlen; try lia.
    exists "Use: script.py <IP/CIDR>  OU  script.py <IP> <MASCARA>".
    split; [reflexivity|]. split; reflexivity.
  - exists (u "Formato inválido. Use IP/CIDR ou 'IP MASCARA'.").
    assert (Hp : ipcalc.parse_input [a]
                 = Raise (Exn ValueError
                            (u "Formato inválido. Use IP/CIDR ou 'IP MASCARA'."))).
    { unfold ipcalc.parse_input.
      rewrite (contains_strip "/" a eq_refl), Hslash. reflexivity. }
    split; [exact Hp|]. split; [|reflexivity].
    unfold ipcalc.main.
    cbn [List.length Nat.leb tl]. rewrite Hp. reflexivity.
Qed.

Lemma usage_error_exit_code_witness :
  ipcalc.exit_code (ipcalc.main ["ipcalc.py"; "192.168.1.10"]) = 2.
Proof.
  destruct (usage_error_exit_code "ipcalc.py" ["192.168.1.10"])
    as (msg & _ & Hmain & _).
  - right. exists "192.168.1.10". split; reflexivity.
  - rewrite Hmain. reflexivity.
Defined.

(** C8: for every dotted-decimal mask [M] whose value is of the form
    1^n 0^(32-n), the normalizer gives [n], and the netmask of prefix
    length [n], written in dotted decimal, is [M] again: as a number, in
    the result of [parse_input] and in the [netmask] field that [summarize]
    reports for any input of prefix length [n]. *)
Theorem mask_round_trip M n :
  0 <= n <= 32 ->
  _ip_int_from_string M = Ok (ones_then_zeros n) ->
  normalize_mask M = Ok n /\
  dotted (_ip_int_from_prefix n) = M /\
  (forall arg0,
      ipcalc.parse_input [arg0; M] = Ok (strip arg0 ++ "/" ++ str_int n)) /\
  (forall target iface,
      IPv4Interface_str target = Ok iface ->
      prefixlen (network iface) = n ->
      exists r, ipcalc.summarize target = Ok r /\ ipcalc.netmask r = M).
Proof.
  intros Hn Hparse.
  pose proof (ip_int_from_string_range _ _ Hparse) as Hv.
  pose proof (ip_int_from_string_dotted _ _ Hparse) as Hdot.
  destruct (dotted_plain _ Hv) as (_ & Hsp & _ & Hstart).
  rewrite Hdot in Hsp, Hstart.
  assert (Hnorm : normalize_mask M = Ok n).
  { rewrite <- Hdot, (normalize_mask_dotted _ Hv).
    rewrite (prefix_from_ip_int_complete n Hn). reflexivity. }
  split; [exact Hnorm|].
  split; [rewrite (ip_int_from_prefix_pattern n Hn); exact Hdot|].
  split.
  - intros arg0. rewrite parse_input_two, (strip_no_space M Hsp), Hstart, Hnorm.
    reflexivity.
  - intros target iface Hi Hp.
    pose proof (IPv4Interface_well_formed _ _ Hi) as Hwf.
    exists (subnet_summary (_ip iface) (_prefixlen (network iface))).
    split; [apply summarize_of_interface; assumption|].
    destruct (subnet_summary_network iface Hwf) as (_ & Hnm & _).
    rewrite Hnm. destruct Hwf as (_ & _ & -> & _).
    unfold prefixlen in Hp. rewrite Hp, (ip_int_from_prefix_pattern n Hn).
    exact Hdot.
Qed.

Lemma mask_round_trip_witness :
  _ip_int_from_string "255.255.255.0" = Ok (ones_then_zeros 24) /\
  normalize_mask "255.255.255.0" = Ok 24 /\
  dotted (_ip_int_from_prefix 24) = "255.255.255.0".
Proof.
  split; [vm_compute; reflexivity|].
  destruct (mask_round_trip "255.255.255.0" 24) as (Hnorm & Hdot & _).
  - lia.
  - vm_compute. reflexivity.
  - split; [exact Hnorm | exact Hdot].
Defined.

(** C10: in the two-argument form, a second argument that is a bare
    decimal number [N] in [0, 32], with no '/' in front, is accepted: the
    normalizer gives [N] and [parse_input] returns the first argument,
    '/' and [N], the same text as for the second argument ['/' N], and an
    interface that parses from it has prefix length [N]. *)
Theorem bare_number_is_prefix arg0 arg1 :
  let s := strip arg1 in
  let N := int_digits 0 s in
  isascii_isdigit s = true ->
  Z.of_nat (String.length s) <= int_max_str_digits ->
  0 <= N <= 32 ->
  normalize_mask s = Ok N /\
  ipcalc.parse_input [arg0; arg1] = Ok (strip arg0 ++ "/" ++ str_int N) /\
  ipcalc.parse_input [arg0; "/" ++ str_int N]
  = Ok (strip arg0 ++ "/" ++ str_int N) /\
  (forall iface,
      IPv4Interface_str (strip arg0 ++ "/" ++ str_int N) = Ok iface ->
      prefixlen (network iface) = N).
Proof.
  intros s N Hd Hlen Hn.
  pose proof (normalize_mask_digits s Hd Hlen Hn) as Hnorm. fold N in Hnorm.
  pose proof (isascii_isdigit_all s Hd) as Hall.
  destruct (str_prefix_plain N Hn) as (_ & Hsp & _).
  split; [exact Hnorm|]. split; [|split].
  - rewrite parse_input_two. fold s. rewrite Hnorm.
    replace (startswith "/" s) with false; [reflexivity|].
    destruct s as [|c r]; [reflexivity|].
    cbn [all_ascii_digits] in Hall. apply andb_true_iff in Hall as [Hc _].
    cbn [startswith]. destruct (Ascii.eqb_spec c "/") as [->|]; [|reflexivity].
    discriminate Hc.
  - rewrite parse_input_two.
    assert (Hs : has_space ("/" ++ str_int N) = false).
    { change ("/" ++ str_int N) with (String "/" (str_int N)).
      cbn [has_space]. rewrite Hsp. reflexivity. }
    rewrite (strip_no_space _ Hs). reflexivity.
  - intros iface. apply cidr_prefixlen. exact Hn.
Qed.

Lemma bare_number_is_prefix_witness :
  normalize_mask "24" = Ok 24 /\
  ipcalc.parse_input ["10.0.0.1"; " 24"] = Ok "10.0.0.1/24".
Proof.
  destruct (bare_number_is_prefix "10.0.0.1" " 24") as (Hnorm & Hparse & _).
  - reflexivity.
  - vm_compute. discriminate.
  - vm_compute. split; discriminate.
  - split; [exact Hnorm | exact Hparse].
Defined.

End Claims.

(** * Further properties of the script *)

(** ** More on [strip] *)

Lemma lstrip_head s :
  lstrip s = "" \/ exists c r, lstrip s = String c r /\ isspace c = false.
Proof.
  induction s as [|c r IH]; cbn [lstrip]; [left; reflexivity|].
  destruct (isspace c) eqn:Hc; [exact IH|].
  right. exists c, r. auto.
Qed.

Lemma rstrip_idempotent s : rstrip (rstrip s) = rstrip s.
Proof.
  induction s as [|c r IH]; cbn [rstrip]; [reflexivity|].
  destruct (rstrip r) as [|e t] eqn:Hr.
  - destruct (isspace c) eqn:Hc; [reflexivity|].
    cbn [rstrip]. rewrite Hc. reflexivity.
  - change (rstrip (String c (String e t)))
      with (match rstrip (String e t) with
            | "" => if isspace c then "" else String c ""
            | String e' t' => String c (String e' t')
            end).
    rewrite IH. reflexivity.
Qed.

Lemma rstrip_head c r :
  isspace c = false -> exists t, rstrip (String c r) = String c t.
Proof.
  intros Hc. cbn [rstrip]. destruct (rstrip r) as [|e t].
  - rewrite Hc. eauto.
  - eauto.
Qed.

(** What [strip] returns starts with no white space and [strip] leaves it
    as it is. *)
Lemma strip_head s :
  strip s = "" \/ exists c r, strip s = String c r /\ isspace c = false.
Proof.
  unfold strip. destruct (lstrip_head s) as [->|(c & r & -> & Hc)].
  - left. reflexivity.
  - right. destruct (rstrip_head c r Hc) as [t ->]. exists c, t. auto.
Qed.

Lemma lstrip_fixed s :
  s = "" \/ (exists c r, s = String c r /\ isspace c = false) -> lstrip s = s.
Proof.
  intros [->|(c & r & -> & Hc)]; cbn [lstrip]; [reflexivity|].
  rewrite Hc. reflexivity.
Qed.

Lemma strip_idempotent s : strip (strip s) = strip s.
Proof.
  unfold strip at 1. rewrite (lstrip_fixed _ (strip_head s)).
  unfold strip. apply rstrip_idempotent.
Qed.

Lemma rstrip_app x y :
  y <> "" -> rstrip y = y -> rstrip (x ++ y) = x ++ y.
Proof.
  intros Hy Hr. induction x as [|c r IH]; cbn [append]; [exact Hr|].
  cbn [rstrip]. rewrite IH.
  destruct (r ++ y) as [|e t] eqn:He; [|reflexivity].
  destruct r; cbn [append] in He; [contradiction | discriminate He].
Qed.

(** Two stripped pieces, the second one not empty, make a stripped text. *)
Lemma strip_app_strip a m :
  strip m <> "" -> strip (strip a ++ strip m) = strip a ++ strip m.
Proof.
  intros Hm.
  assert (Hl : lstrip (strip a ++ strip m) = strip a ++ strip m).
  { apply lstrip_fixed.
    destruct (strip_head a) as [->|(c & r & -> & Hc)].
    - cbn [append]. destruct (strip_head m) as [He|H]; [contradiction|].
      right. exact H.
    - right. exists c, (r ++ strip m). auto. }
  unfold strip at 1. rewrite Hl.
  apply rstrip_app; [exact Hm|].
  unfold strip. apply rstrip_idempotent.
Qed.

(** ** The forms of invocation *)

Section Invocation.

Import ipaddress.

(** X1: white space around an argument is ignored: [parse_input] gives
    the same result on the stripped arguments. *)
Theorem parse_input_ignores_outer_space argv :
  ipcalc.parse_input (map strip argv) = ipcalc.parse_input argv.
Proof.
  destruct argv as [|a [|b [|c rest]]]; cbn [map]; [reflexivity| | |reflexivity].
  - unfold ipcalc.parse_input. rewrite strip_idempotent. reflexivity.
  - rewrite !parse_input_two, !strip_idempotent. reflexivity.
Qed.

(** X2: a second argument that starts with '/' is glued to the first one
    with no check, so the two-argument form [ip /mask] and the
    one-argument form [ip/mask] have the same target, and the script
    prints the same lines with the same exit code. *)
Theorem slash_forms_agree prog arg0 arg1 :
  startswith "/" (strip arg1) = true ->
  ipcalc.parse_input [arg0; arg1] = Ok (strip arg0 ++ strip arg1) /\
  ipcalc.parse_input [strip arg0 ++ strip arg1] = Ok (strip arg0 ++ strip arg1) /\
  ipcalc.main [prog; arg0; arg1] = ipcalc.main [prog; strip arg0 ++ strip arg1].
Proof.
  intros Hs.
  assert (H2 : ipcalc.parse_input [arg0; arg1] = Ok (strip arg0 ++ strip arg1)).
  { rewrite parse_input_two, Hs. reflexivity. }
  assert (H1 : ipcalc.parse_input [strip arg0 ++ strip arg1]
               = Ok (strip arg0 ++ strip arg1)).
  { assert (Hne : strip arg1 <> "").
    { intros He. rewrite He in Hs. discriminate Hs. }
    unfold ipcalc.parse_input. rewrite (strip_app_strip _ _ Hne).
    rewrite contains_app.
    destruct (strip arg1) as [|c r]; [discriminate Hs|].
    cbn [startswith] in Hs. cbn [contains]. rewrite Hs.
    rewrite orb_true_r. reflexivity. }
  split; [exact H2|]. split; [exact H1|].
  unfold ipcalc.main. cbn [List.length Nat.leb tl].
  rewrite H1, H2. reflexivity.
Qed.

Lemma slash_forms_agree_witness :
  ipcalc.parse_input ["10.0.0.1 "; " /30"] = Ok "10.0.0.1/30" /\
  ipcalc.main ["ipcalc.py"; "10.0.0.1 "; " /30"]
  = ipcalc.main ["ipcalc.py"; "10.0.0.1/30"].
Proof.
  destruct (slash_forms_agree "ipcalc.py" "10.0.0.1 " " /30") as (H2 & _ & Hm).
  - reflexivity.
  - split; [exact H2 | exact Hm].
Defined.

(** X3: the '/' form is not validated by [parse_input]: when the glued
    text is not a valid interface the failure comes from [summarize], and
    the script prints ["Erro: Entrada inválida: "] followed by the glued
    text and exits with code 2. *)
Theorem slash_form_fails_in_summarize prog arg0 arg1 k :
  startswith "/" (strip arg1) = true ->
  IPv4Interface_str (strip arg0 ++ strip arg1) = Raise k ->
  ipcalc.main [prog; arg0; arg1]
  = ipcalc.Exit
      ["Erro: " ++ u "Entrada inválida: " ++ strip arg0 ++ strip arg1] 2.
Proof.
  intros Hs Hk. unfold ipcalc.main. cbn [List.length Nat.leb tl].
  rewrite parse_input_two, Hs. cbn [bind].
  unfold ipcalc.summarize. rewrite Hk. reflexivity.
Qed.

Lemma slash_form_fails_in_summarize_witness :
  ipcalc.main ["ipcalc.py"; "10.0.0.1"; "/99"]
  = ipcalc.Exit ["Erro: " ++ u "Entrada inválida: " ++ "10.0.0.1/99"] 2.
Proof.
  apply (slash_form_fails_in_summarize "ipcalc.py" "10.0.0.1" "/99"
           NetmaskValueError).
  - reflexivity.
  - vm_compute. reflexivity.
Defined.

(** X4: a dotted hostmask, [n] zeros followed by ones with 0 < n < 32, is
    accepted as second argument and gives the prefix length [n]. *)
Theorem hostmask_argument_accepted arg0 arg1 n :
  0 < n < 32 ->
  _ip_int_from_string (strip arg1) = Ok (zeros_then_ones n) ->
  ipcalc.parse_input [arg0; arg1] = Ok (strip arg0 ++ "/" ++ str_int n).
Proof.
  intros Hn Hparse.
  pose proof (ip_int_from_string_range _ _ Hparse) as Hv.
  pose proof (ip_int_from_string_dotted _ _ Hparse) as Hdot.
  destruct (dotted_plain _ Hv) as (_ & _ & _ & Hstart).
  rewrite Hdot in Hstart.
  rewrite parse_input_two, Hstart, <- Hdot, (normalize_mask_hostmask n Hn).
  reflexivity.
Qed.

Lemma hostmask_argument_accepted_witness :
  ipcalc.parse_input ["172.16.5.4"; "0.0.255.255"] = Ok "172.16.5.4/16".
Proof.
  apply (hostmask_argument_accepted "172.16.5.4" "0.0.255.255" 16).
  - lia.
  - vm_compute. reflexivity.
Defined.

(** The normalizer on a text with neither '.' nor '/' that is not a
    decimal prefix length. *)
Lemma normalize_mask_plain_rejected s :
  contains "." s = false ->
  ~ (isascii_isdigit s = true /\
     Z.of_nat (String.length s) <= int_max_str_digits /\
     int_digits 0 s <= 32) ->
  exists k, normalize_mask s = Raise k.
Proof.
  intros Hdot Hnot.
  destruct (contains "/" s) eqn:Hslash.
  - unfold normalize_mask, IPv4Network_str, _split_addr_prefix,
      _split_optional_netmask.
    change ("0.0.0.0/" ++ s) with ("0.0.0.0" ++ String "/" s).
    rewrite split_app, length_app.
    pose proof (split_length_sep "/" s Hslash) as H2.
    replace (split "/" "0.0.0.0") with ["0.0.0.0"] by (vm_compute; reflexivity).
    cbn [List.length].
    destruct (Z.ltb_spec 2 (Z.of_nat (1 + List.length (split "/" s))));
      [|lia].
    cbn [bind]. eauto.
  - rewrite (normalize_mask_make s Hslash).
    assert (H1 : _prefix_from_prefix_string s = Raise NetmaskValueError).
    { unfold _prefix_from_prefix_string, _report_invalid_netmask, int_str,
        _max_prefixlen.
      destruct (isascii_isdigit s) eqn:Hd; cbn [negb]; [|reflexivity].
      destruct (Z.ltb_spec int_max_str_digits (Z.of_nat (String.length s)));
        cbn [try_except is_ValueError bind]; [reflexivity|].
      destruct (Z.leb_spec 0 (int_digits 0 s));
        destruct (Z.leb_spec (int_digits 0 s) 32); cbn [andb negb];
        try reflexivity.
      exfalso. apply Hnot. auto. }
    assert (H2 : _prefix_from_ip_string s = Raise NetmaskValueError).
    { unfold _prefix_from_ip_string, _ip_int_from_string, _report_invalid_netmask.
      destruct (s =? "")%string; [reflexivity|].
      rewrite (split_no_sep "." s Hdot). reflexivity. }
    unfold _make_netmask. rewrite H1. cbn [try_except is_NetmaskValueError].
    rewrite H2. cbn [bind]. eauto.
Qed.

(** X5: a second argument with no '.' that does not start with '/' is
    rejected unless it is a decimal number of at most 4300 digits with a
    value of at most 32: a number above 32, an empty argument and any other
    text raise the [ValueError] ["Máscara inválida: "] followed by the
    argument. *)
Theorem plain_mask_rejected arg0 arg1 :
  let s := strip arg1 in
  contains "." s = false ->
  startswith "/" s = false ->
  ~ (isascii_isdigit s = true /\
     Z.of_nat (String.length s) <= int_max_str_digits /\
     int_digits 0 s <= 32) ->
  ipcalc.parse_input [arg0; arg1]
  = Raise (Exn ValueError (u "Máscara inválida: " ++ s)).
Proof.
  intros s Hdot Hstart Hnot.
  rewrite parse_input_two. fold s. rewrite Hstart.
  destruct (normalize_mask_plain_rejected s Hdot Hnot) as [k ->].
  reflexivity.
Qed.

Lemma plain_mask_rejected_witness :
  ipcalc.parse_input ["10.0.0.1"; "33"]
  = Raise (Exn ValueError (u "Máscara inválida: " ++ "33")) /\
  ipcalc.parse_input ["10.0.0.1"; " "]
  = Raise (Exn ValueError (u "Máscara inválida: " ++ "")).
Proof.
  split.
  - apply (plain_mask_rejected "10.0.0.1" "33"); [reflexivity | reflexivity |].
    intros (_ & _ & H). vm_compute in H. apply H. reflexivity.
  - apply (plain_mask_rejected "10.0.0.1" " "); [reflexivity | reflexivity |].
    intros (H & _). discriminate H.
Defined.

(** A single argument with a '/' and no white space goes to [summarize]
    as it is. *)
Lemma main_one prog t :
  has_space t = false -> contains "/" t = true ->
  ipcalc.main [prog; t]
  = match ipcalc.summarize t with
    | Ok r => ipcalc.Exit (ipcalc.pretty_print r) 0
    | Raise e => ipcalc.Exit ["Erro: " ++ exn_msg e] 2
    end.
Proof.
  intros Hsp Hsl. unfold ipcalc.main. cbn [List.length Nat.leb tl].
  unfold ipcalc.parse_input. rewrite (strip_no_space t Hsp), Hsl.
  cbn [bind]. destruct (ipcalc.summarize t); reflexivity.
Qed.

(** The interface of an address text and a mask text. *)
Lemma interface_of_text addr m a nm p :
  contains "/" addr = false -> contains "/" m = false ->
  _ip_int_from_string addr = Ok a ->
  _make_netmask (MaskStr m) = Ok (nm, p) ->
  IPv4Interface_str (addr ++ "/" ++ m)
  = Ok {| _ip := a;
          network := {| ipaddress.network_address := Z.land a nm;
                        netmask := nm;
                        _prefixlen := p |} |}.
Proof.
  intros Hslash Hm Ha Hmask.
  pose proof (ip_int_from_string_range _ _ Ha) as Hr.
  destruct (make_netmask_inv _ _ _ Hmask) as [Hp Hnm].
  unfold IPv4Interface_str, _split_addr_prefix, _split_optional_netmask.
  change (addr ++ "/" ++ m) with (addr ++ String "/" m).
  rewrite (split_app_sep "/" addr _ Hslash), (split_no_sep "/" _ Hm).
  cbn [List.length Z.of_nat Pos.of_succ_nat Pos.succ Z.ltb Z.compare
       Pos.compare Pos.compare_cont bind].
  unfold IPv4Network_pair, IPv4Address_str.
  rewrite Hslash, Ha. cbn [bind]. rewrite Hmask. cbn [bind].
  destruct (Z.eqb_spec (Z.land a nm) a) as [He|Hne]; cbn [negb].
  - cbn [bind]. rewrite He. reflexivity.
  - rewrite IPv4Address_int_Ok; [reflexivity|].
    rewrite Hnm, (land_netmask a p Hr Hp).
    assert (Hk : 0 < 2 ^ (32 - p)) by (apply Z.pow_pos_nonneg; lia).
    pose proof (block_start_bound a _ (proj1 Hr) Hk). lia.
Qed.

(** X6: a dotted mask (netmask or hostmask) that the normalizer turns
    into [n] and the decimal prefix length [n] are interchangeable:
    [summarize] returns the same record for [addr/M] and [addr/n], and the
    script prints the same report for the arguments [addr M], [addr/M] and
    [addr/n]. *)
Theorem mask_notations_agree prog addr a M v n :
  _ip_int_from_string addr = Ok a ->
  _ip_int_from_string M = Ok v ->
  normalize_mask M = Ok n ->
  ipcalc.summarize (addr ++ "/" ++ M) = Ok (subnet_summary a n) /\
  ipcalc.summarize (addr ++ "/" ++ str_int n) = Ok (subnet_summary a n) /\
  ipcalc.main [prog; addr; M]
  = ipcalc.Exit (ipcalc.pretty_print (subnet_summary a n)) 0 /\
  ipcalc.main [prog; addr ++ "/" ++ M]
  = ipcalc.Exit (ipcalc.pretty_print (subnet_summary a n)) 0 /\
  ipcalc.main [prog; addr ++ "/" ++ str_int n]
  = ipcalc.Exit (ipcalc.pretty_print (subnet_summary a n)) 0.
Proof.
  intros Ha HM Hnorm.
  pose proof (ip_int_from_string_range _ _ Ha) as Hra.
  pose proof (ip_int_from_string_range _ _ HM) as Hrv.
  pose proof (ip_int_from_string_dotted _ _ Ha) as Hda.
  pose proof (ip_int_from_string_dotted _ _ HM) as Hdv.
  destruct (dotted_plain a Hra) as (Ha1 & Ha2 & _ & _).
  destruct (dotted_plain v Hrv) as (Hv1 & Hv2 & _ & Hv4).
  rewrite Hda in Ha1, Ha2. rewrite Hdv in Hv1, Hv2, Hv4.
  rewrite (normalize_mask_make M Hv1) in Hnorm.
  destruct (_make_netmask (MaskStr M)) as [[nm q]|k] eqn:Hmask;
    [|discriminate Hnorm].
  cbn [bind] in Hnorm. assert (q = n) by congruence. subst q.
  destruct (make_netmask_inv _ _ _ Hmask) as [Hn Hnm].
  destruct (str_prefix_plain n Hn) as (Hn1 & Hn2 & _).
  assert (S1 : ipcalc.summarize (addr ++ "/" ++ M) = Ok (subnet_summary a n)).
  { rewrite summarize_eq, (interface_of_text addr M a nm n Ha1 Hv1 Ha Hmask).
    reflexivity. }
  assert (S2 : ipcalc.summarize (addr ++ "/" ++ str_int n)
               = Ok (subnet_summary a n)).
  { rewrite summarize_eq, (interface_of_cidr addr n a Ha1 Ha Hn). reflexivity. }
  split; [exact S1|]. split; [exact S2|].
  split; [|split].
  - unfold ipcalc.main. cbn [List.length Nat.leb tl].
    rewrite parse_input_two, (strip_no_space M Hv2), Hv4,
      (strip_no_space addr Ha2).
    rewrite (normalize_mask_make M Hv1), Hmask. cbn [bind].
    rewrite S2. reflexivity.
  - rewrite main_one, S1; [reflexivity | |].
    + rewrite !has_space_app, Ha2, Hv2. reflexivity.
    + rewrite !contains_app. cbn [contains Ascii.eqb Bool.eqb].
      rewrite orb_true_r. reflexivity.
  - rewrite main_one, S2; [reflexivity | |].
    + rewrite !has_space_app, Ha2, Hn2. reflexivity.
    + rewrite !contains_app. cbn [contains Ascii.eqb Bool.eqb].
      rewrite orb_true_r. reflexivity.
Qed.

Lemma mask_notations_agree_witness :
  ipcalc.summarize "10.0.0.2/255.255.255.252" = ipcalc.summarize "10.0.0.2/30" /\
  ipcalc.main ["ipcalc.py"; "10.0.0.2"; "255.255.255.252"]
  = ipcalc.main ["ipcalc.py"; "10.0.0.2/30"].
Proof.
  destruct (mask_notations_agree "ipcalc.py" "10.0.0.2" 167772162
              "255.255.255.252" 4294967292 30)
    as (S1 & S2 & M1 & _ & M3); try (vm_compute; reflexivity).
  change ("10.0.0.2" ++ "/" ++ "255.255.255.252")
    with "10.0.0.2/255.255.255.252" in S1.
  change ("10.0.0.2" ++ "/" ++ str_int 30) with "10.0.0.2/30" in S2, M3.
  split; congruence.
Defined.

Lemma parse_input_raises argv e :
  ipcalc.parse_input argv = Raise e -> exn_kind e = ValueError.
Proof.
  destruct argv as [|a [|b [|c rest]]].
  - cbn. intros H. injection H as <-. reflexivity.
  - unfold ipcalc.parse_input. destruct (contains "/" (strip a));
      [discriminate|]. intros H. injection H as <-. reflexivity.
  - rewrite parse_input_two. destruct (startswith "/" (strip b));
      [discriminate|].
    destruct (normalize_mask (strip b)); [discriminate|].
    intros H. injection H as <-. reflexivity.
  - cbn. intros H. injection H as <-. reflexivity.
Qed.

(** X7: a run of the script ends in one of three ways.  With no argument
    it prints three lines of usage and exits with code 1.  When
    [parse_input] gives a target that parses as an interface it prints the
    ten lines of the report and exits with code 0.  Otherwise it prints
    the single line ["Erro: "] followed by the text of the [ValueError]
    raised by [parse_input] or by [summarize], and exits with code 2; no
    line of the report is printed then. *)
Theorem main_outcomes sys_argv :
  let out := ipcalc.main sys_argv in
  ((List.length sys_argv <= 1)%nat /\
   ipcalc.exit_code out = 1 /\ List.length (ipcalc.stdout out) = 3%nat) \/
  ((1 < List.length sys_argv)%nat /\
   exists target iface,
     ipcalc.parse_input (tl sys_argv) = Ok target /\
     IPv4Interface_str target = Ok iface /\
     out = ipcalc.Exit
             (ipcalc.pretty_print
                (subnet_summary (_ip iface) (prefixlen (network iface)))) 0 /\
     List.length (ipcalc.stdout out) = 10%nat) \/
  ((1 < List.length sys_argv)%nat /\
   exists msg,
     out = ipcalc.Exit ["Erro: " ++ msg] 2 /\
     (ipcalc.parse_input (tl sys_argv) = Raise (Exn ValueError msg) \/
      exists target k,
        ipcalc.parse_input (tl sys_argv) = Ok target /\
        IPv4Interface_str target = Raise k /\
        msg = u "Entrada inválida: " ++ target)).
Proof.
  intros out. unfold out, ipcalc.main.
  destruct (Nat.leb_spec (List.length sys_argv) 1) as [Hle|Hgt].
  - left. split; [exact Hle|]. split; reflexivity.
  - right.
    destruct (ipcalc.parse_input (tl sys_argv)) as [target|e] eqn:Hp.
    + cbn [bind]. rewrite summarize_eq.
      destruct (IPv4Interface_str target) as [iface|k] eqn:Hi.
      * left. split; [exact Hgt|]. exists target, iface.
        split; [reflexivity|]. split; [exact Hi|]. split; reflexivity.
      * right. split; [exact Hgt|].
        exists (u "Entrada inválida: " ++ target).
        split; [reflexivity|]. right. exists target, k. auto.
    + right. split; [exact Hgt|].
      pose proof (parse_input_raises _ _ Hp) as Hk.
      destruct e as [k msg]. cbn [exn_kind] in Hk. subst k.
      exists msg. split; [reflexivity|]. left. reflexivity.
Qed.

End Invocation.

(** ** Blocks of addresses *)

Section Blocks.

Import ipaddress.

Lemma same_block_floor a x K :
  0 < K ->
  a - a mod K <= x <= a - a mod K + K - 1 ->
  x - x mod K = a - a mod K.
Proof.
  intros HK Hx.
  pose proof (Z.div_mod a K ltac:(lia)) as Hdm.
  assert (Hmod : x - (a - a mod K) = x mod K).
  { apply (Z.mod_unique x K (a / K)); lia. }
  lia.
Qed.

Lemma block_of_floor a x K :
  0 < K -> x - x mod K = a - a mod K ->
  a - a mod K <= x <= a - a mod K + K - 1.
Proof.
  intros HK H. pose proof (Z.mod_pos_bound x K HK). lia.
Qed.

Lemma dotted_inj x y :
  0 <= x < 2 ^ 32 -> 0 <= y < 2 ^ 32 -> dotted x = dotted y -> x = y.
Proof.
  intros Hx Hy H.
  pose proof (ip_int_from_dotted x Hx) as Px.
  pose proof (ip_int_from_dotted y Hy) as Py.
  rewrite H in Px. congruence.
Qed.

Lemma in_range lo hi x : In x (range lo hi) <-> lo <= x < hi.
Proof.
  unfold range. rewrite in_map_iff. split.
  - intros (i & <- & Hi). apply in_seq in Hi. lia.
  - intros Hx. exists (Z.to_nat (x - lo)). split; [lia|].
    apply in_seq. lia.
Qed.

Lemma NoDup_range lo hi : NoDup (range lo hi).
Proof.
  unfold range. apply NoDup_map_NoDup_ForallPairs.
  - intros i j _ _ H. lia.
  - apply seq_NoDup.
Qed.

Variable iface : IPv4Interface.
Hypothesis Hwf : well_formed iface.

Let a := _ip iface.
Let p := _prefixlen (network iface).
Let net := ipaddress.network_address (network iface).
Let bcast := Z.lor net (Z.lxor (netmask (network iface)) 0xFFFFFFFF).

Local Lemma blk_a : 0 <= a < 2 ^ 32.
Proof. apply Hwf. Qed.

Local Lemma blk_p : 0 <= p <= 32.
Proof. apply Hwf. Qed.

Local Lemma blk_size : 0 < 2 ^ (32 - p).
Proof. pose proof blk_p. apply Z.pow_pos_nonneg; lia. Qed.

Local Lemma blk_net : net = a - a mod 2 ^ (32 - p).
Proof.
  destruct Hwf as (Ha & Hp & Hnm & Hna).
  unfold net. rewrite Hna, Hnm. apply land_netmask; assumption.
Qed.

Local Lemma blk_bcast : bcast = net + 2 ^ (32 - p) - 1.
Proof.
  destruct Hwf as (Ha & Hp & Hnm & Hna).
  assert (Hn : net = Z.land a (_ip_int_from_prefix p))
    by (unfold net; rewrite Hna, Hnm; reflexivity).
  unfold bcast. rewrite Hnm, Hn. change 0xFFFFFFFF with _ALL_ONES.
  change (_prefixlen (network iface)) with p.
  rewrite (lor_hostmask a p blk_a blk_p), (land_netmask a p blk_a blk_p). lia.
Qed.

Local Lemma blk_bounds : 0 <= net /\ bcast < 2 ^ 32.
Proof.
  rewrite blk_bcast, blk_net.
  pose proof (block_end_bound a p blk_a blk_p).
  pose proof (block_start_bound a _ (proj1 blk_a) blk_size). lia.
Qed.

(** The summary of an address [x] with the prefix length [p], next to the
    summary of [a]. *)
Lemma subnet_summary_same_network x :
  0 <= x < 2 ^ 32 ->
  Z.land x (_ip_int_from_prefix p) = Z.land a (_ip_int_from_prefix p) ->
  subnet_summary x p = with_input_ip (dotted x) (subnet_summary a p).
Proof.
  intros Hx Hland. unfold subnet_summary, with_input_ip.
  cbn [ipcalc.input_ip ipcalc.network_address ipcalc.netmask ipcalc.prefix
       ipcalc.broadcast ipcalc.total_addresses ipcalc.num_usable
       ipcalc.first_usable ipcalc.last_usable ipcalc.gateway_suggestion
       ipcalc.wildcard].
  rewrite (spec_netmask_eq iface p blk_p), Hland. reflexivity.
Qed.

Lemma summarize_in_block x :
  net <= x <= bcast ->
  ipcalc.summarize (dotted x ++ "/" ++ str_int p)
  = Ok (with_input_ip (dotted x) (subnet_summary a p)).
Proof.
  intros Hx. pose proof blk_bounds as Hb.
  assert (Hrx : 0 <= x < 2 ^ 32) by lia.
  rewrite summarize_eq, (interface_of_pair x p Hrx blk_p).
  cbn [_ip network prefixlen _prefixlen]. f_equal.
  apply subnet_summary_same_network; [exact Hrx|].
  rewrite (land_netmask x p Hrx blk_p), (land_netmask a p blk_a blk_p).
  apply same_block_floor; [apply blk_size|].
  rewrite <- blk_net. rewrite blk_bcast in Hx. lia.
Qed.

Lemma net_in_block : net <= net <= bcast.
Proof. rewrite blk_bcast. pose proof blk_size. lia. Qed.

Lemma bcast_in_block : net <= bcast <= bcast.
Proof. rewrite blk_bcast. pose proof blk_size. lia. Qed.

Lemma a_in_block : net <= a <= bcast.
Proof.
  rewrite blk_bcast, blk_net.
  pose proof (Z.mod_pos_bound a _ blk_size). lia.
Qed.

End Blocks.

Lemma with_input_ip_same r : with_input_ip (ipcalc.input_ip r) r = r.
Proof. destruct r. reflexivity. Qed.

(** ** Subnets as [summarize] reports them *)

Section Subnets.

Import ipaddress.

(** X8: every address [x] of the block, from the network address to the
    broadcast address, has the same summary under the same prefix length:
    [summarize] of [x/p] returns the record of the original input with
    [input_ip] replaced by [x]. *)
Theorem same_block_same_summary target iface x :
  IPv4Interface_str target = Ok iface ->
  let net := ipaddress.network_address (network iface) in
  let bcast := Z.lor net (Z.lxor (netmask (network iface)) 0xFFFFFFFF) in
  net <= x <= bcast ->
  exists r,
    ipcalc.summarize target = Ok r /\
    ipcalc.summarize (dotted x ++ "/" ++ str_int (prefixlen (network iface)))
    = Ok (with_input_ip (dotted x) r).
Proof.
  intros Hparse net bcast Hx.
  pose proof (IPv4Interface_well_formed _ _ Hparse) as Hwf.
  exists (subnet_summary (_ip iface) (_prefixlen (network iface))).
  split; [apply summarize_of_interface; assumption|].
  apply (summarize_in_block iface Hwf x Hx).
Qed.

Lemma same_block_same_summary_witness :
  exists r,
    ipcalc.summarize "192.168.1.10/24" = Ok r /\
    ipcalc.summarize (dotted 3232236000 ++ "/" ++ str_int 24)
    = Ok (with_input_ip (dotted 3232236000) r).
Proof.
  apply (same_block_same_summary "192.168.1.10/24" iface_24 3232236000).
  - vm_compute. reflexivity.
  - vm_compute. split; discriminate.
Defined.

(** X9: the summary can be fed back: the text [input_ip] followed by
    [prefix] gives the same record again, and the reported network and
    broadcast addresses followed by [prefix] give that record with only
    [input_ip] changed. *)
Theorem summary_feeds_back target r :
  ipcalc.summarize target = Ok r ->
  ipcalc.summarize (ipcalc.input_ip r ++ ipcalc.prefix r) = Ok r /\
  ipcalc.summarize (ipcalc.network_address r ++ ipcalc.prefix r)
  = Ok (with_input_ip (ipcalc.network_address r) r) /\
  ipcalc.summarize (ipcalc.broadcast r ++ ipcalc.prefix r)
  = Ok (with_input_ip (ipcalc.broadcast r) r).
Proof.
  rewrite summarize_eq.
  destruct (IPv4Interface_str target) as [iface|k] eqn:Hparse; [|discriminate].
  intros H. assert (Hr : r = subnet_summary (_ip iface) (_prefixlen (network iface)))
    by (unfold prefixlen in H; congruence).
  pose proof (IPv4Interface_well_formed _ _ Hparse) as Hwf.
  destruct (subnet_summary_network iface Hwf) as (Hnet & _ & Hbc & _).
  rewrite <- Hr in Hnet, Hbc.
  assert (Hpre : ipcalc.prefix r = "/" ++ str_int (_prefixlen (network iface)))
    by (rewrite Hr; reflexivity).
  assert (Hip : ipcalc.input_ip r = dotted (_ip iface))
    by (rewrite Hr; reflexivity).
  split; [|split].
  - rewrite Hpre, Hip, (summarize_in_block iface Hwf _ (a_in_block iface Hwf)).
    rewrite <- Hr, <- Hip, with_input_ip_same. reflexivity.
  - rewrite Hpre, Hnet, (summarize_in_block iface Hwf _ (net_in_block iface Hwf)).
    rewrite <- Hr. reflexivity.
  - rewrite Hpre, Hbc, (summarize_in_block iface Hwf _ (bcast_in_block iface Hwf)).
    rewrite <- Hr. reflexivity.
Qed.

Lemma summary_feeds_back_witness :
  exists r,
    ipcalc.summarize "192.168.1.10/255.255.255.0" = Ok r /\
    ipcalc.summarize (ipcalc.input_ip r ++ ipcalc.prefix r) = Ok r /\
    ipcalc.summarize (ipcalc.network_address r ++ ipcalc.prefix r)
    = Ok (with_input_ip (ipcalc.network_address r) r).
Proof.
  exists (subnet_summary 3232235786 24).
  assert (H : ipcalc.summarize "192.168.1.10/255.255.255.0"
              = Ok (subnet_summary 3232235786 24)).
  { rewrite summarize_eq.
    replace (IPv4Interface_str "192.168.1.10/255.255.255.0") with (Ok (E:=kind) iface_24)
      by (vm_compute; reflexivity).
    reflexivity. }
  destruct (summary_feeds_back _ _ H) as (H1 & H2 & _).
  split; [exact H|]. split; [exact H1 | exact H2].
Defined.

(** X10: the reported network address identifies the block: for a 32-bit
    address [x], [summarize] of [x/p] reports the same network address as
    for the original input exactly when [x] lies between the network
    address and the broadcast address. *)
Theorem network_identifies_block target iface x :
  IPv4Interface_str target = Ok iface ->
  0 <= x < 2 ^ 32 ->
  let net := ipaddress.network_address (network iface) in
  let bcast := Z.lor net (Z.lxor (netmask (network iface)) 0xFFFFFFFF) in
  exists r r',
    ipcalc.summarize target = Ok r /\
    ipcalc.summarize (dotted x ++ "/" ++ str_int (prefixlen (network iface)))
    = Ok r' /\
    (ipcalc.network_address r' = ipcalc.network_address r <->
     net <= x <= bcast).
Proof.
  intros Hparse Hx net bcast.
  pose proof (IPv4Interface_well_formed _ _ Hparse) as Hwf.
  pose proof Hwf as (Ha & Hp & Hnm & Hna).
  unfold prefixlen.
  set (a := _ip iface) in *. set (p := _prefixlen (network iface)) in *.
  exists (subnet_summary a p), (subnet_summary x p).
  split; [apply summarize_of_interface; assumption|].
  split.
  { rewrite summarize_eq, (interface_of_pair x p Hx Hp). reflexivity. }
  assert (Hk : 0 < 2 ^ (32 - p)) by (apply Z.pow_pos_nonneg; lia).
  assert (Hnet : net = a - a mod 2 ^ (32 - p)) by (apply blk_net; exact Hwf).
  assert (Hbc : bcast = net + 2 ^ (32 - p) - 1) by (apply blk_bcast; exact Hwf).
  unfold subnet_summary. cbn [ipcalc.network_address].
  rewrite (spec_netmask_eq iface p Hp).
  rewrite (land_netmask x p Hx Hp), (land_netmask a p Ha Hp).
  pose proof (block_start_bound x _ (proj1 Hx) Hk).
  pose proof (block_start_bound a _ (proj1 Ha) Hk).
  split.
  - intros Heq. apply dotted_inj in Heq; [|lia|lia].
    pose proof (block_of_floor a x _ Hk Heq). lia.
  - intros Hin. f_equal. apply same_block_floor; [exact Hk | lia].
Qed.

Lemma network_identifies_block_witness :
  exists r r',
    ipcalc.summarize "192.168.1.10/24" = Ok r /\
    ipcalc.summarize (dotted 3232236032 ++ "/" ++ str_int 24) = Ok r' /\
    ipcalc.network_address r' <> ipcalc.network_address r.
Proof.
  destruct (network_identifies_block "192.168.1.10/24" iface_24 3232236032)
    as (r & r' & H1 & H2 & Hiff).
  - vm_compute. reflexivity.
  - vm_compute. split; [discriminate | reflexivity].
  - exists r, r'. split; [exact H1|]. split; [exact H2|].
    intros Heq. apply Hiff in Heq. vm_compute in Heq.
    destruct Heq as [_ Hle]. apply Hle. reflexivity.
Defined.

(** X11: below /31 the list of usable hosts holds exactly the addresses
    strictly between the network address and the broadcast address, each
    once; it has at least two elements, and the input address is in it
    unless it is the network address or the broadcast address. *)
Theorem usable_hosts_exact target iface :
  IPv4Interface_str target = Ok iface ->
  prefixlen (network iface) <= 30 ->
  let a := _ip iface in
  let net := ipaddress.network_address (network iface) in
  let bcast := Z.lor net (Z.lxor (netmask (network iface)) 0xFFFFFFFF) in
  exists hosts_list,
    hosts (network iface) = Ok hosts_list /\
    (forall x, In x hosts_list <-> net < x < bcast) /\
    NoDup hosts_list /\
    (2 <= List.length hosts_list)%nat /\
    (In a hosts_list <-> a <> net /\ a <> bcast).
Proof.
  intros Hparse Hp30 a net bcast. unfold prefixlen in Hp30.
  pose proof (IPv4Interface_well_formed _ _ Hparse) as Hwf.
  pose proof (hosts_Ok iface Hwf Hp30) as Hhosts.
  pose proof Hwf as (Ha & Hp & Hnm & Hna).
  rewrite <- Hnm, <- Hna in Hhosts.
  change _ALL_ONES with 0xFFFFFFFF in Hhosts.
  fold net in Hhosts. fold bcast in Hhosts.
  assert (Hbc : bcast = net + 2 ^ (32 - _prefixlen (network iface)) - 1)
    by (apply blk_bcast; exact Hwf).
  assert (H4 : 4 <= 2 ^ (32 - _prefixlen (network iface))).
  { change 4 with (2 ^ 2). apply Z.pow_le_mono_r; lia. }
  pose proof (a_in_block iface Hwf) as Hin. fold a net bcast in Hin.
  assert (Hmem : forall x, In x (range (net + 1) bcast) <-> net < x < bcast).
  { intros x. rewrite in_range. lia. }
  exists (range (net + 1) bcast).
  split; [exact Hhosts|]. split; [exact Hmem|].
  split; [apply NoDup_range|].
  split; [rewrite range_length; lia|].
  rewrite Hmem. lia.
Qed.

Lemma usable_hosts_exact_witness :
  exists hosts_list,
    hosts (network iface_24) = Ok hosts_list /\
    (forall x, In x hosts_list <-> 3232235776 < x < 3232236031) /\
    NoDup hosts_list /\
    (2 <= List.length hosts_list)%nat /\
    (In 3232235786 hosts_list <->
     3232235786 <> 3232235776 /\ 3232235786 <> 3232236031).
Proof.
  apply (usable_hosts_exact "192.168.1.10/24" iface_24).
  - vm_compute. reflexivity.
  - vm_compute. discriminate.
Defined.

Lemma land_all_ones a : 0 <= a < 2 ^ 32 -> Z.land a 4294967295 = a.
Proof.
  intros Ha. change 4294967295 with (Z.ones 32).
  rewrite Z.land_ones by lia. apply Z.mod_small. exact Ha.
Qed.

(** X12: for a /32 the network address and the broadcast address are the
    input address itself, the netmask is 255.255.255.255, the wildcard is
    0.0.0.0 and the total is one address, with no usable host. *)
Theorem host_route_summary target iface :
  IPv4Interface_str target = Ok iface ->
  prefixlen (network iface) = 32 ->
  exists r,
    ipcalc.summarize target = Ok r /\
    ipcalc.network_address r = ipcalc.input_ip r /\
    ipcalc.broadcast r = ipcalc.input_ip r /\
    ipcalc.netmask r = "255.255.255.255" /\
    ipcalc.wildcard r = "0.0.0.0" /\
    ipcalc.total_addresses r = 1 /\
    ipcalc.num_usable r = 0.
Proof.
  intros Hparse Hp32. unfold prefixlen in Hp32.
  pose proof (IPv4Interface_well_formed _ _ Hparse) as Hwf.
  destruct (subnet_summary_network iface Hwf) as (Hnet & Hnms & Hbc & Hw).
  pose proof Hwf as (Ha & Hp & Hnm & Hna).
  rewrite Hp32 in Hnm.
  change (_ip_int_from_prefix 32) with 4294967295 in Hnm.
  rewrite Hnm in Hna, Hnms, Hbc, Hw. rewrite (land_all_ones _ Ha) in Hna.
  rewrite Hna in Hnet, Hbc.
  change (Z.lxor 4294967295 4294967295) with 0 in Hbc, Hw.
  rewrite Z.lor_0_r in Hbc.
  exists (subnet_summary (_ip iface) (_prefixlen (network iface))).
  split; [apply summarize_of_interface; assumption|].
  split; [exact Hnet|]. split; [exact Hbc|].
  split; [exact Hnms|]. split; [exact Hw|].
  rewrite Hp32. split; reflexivity.
Qed.

Lemma host_route_summary_witness :
  exists r,
    ipcalc.summarize "10.1.2.3/32" = Ok r /\
    ipcalc.network_address r = ipcalc.input_ip r /\
    ipcalc.broadcast r = ipcalc.input_ip r /\
    ipcalc.netmask r = "255.255.255.255" /\
    ipcalc.wildcard r = "0.0.0.0" /\
    ipcalc.total_addresses r = 1 /\
    ipcalc.num_usable r = 0.
Proof.
  apply (host_route_summary "10.1.2.3/32"
           {| _ip := 167838211;
              network := {| ipaddress.network_address := 167838211;
                            netmask := 4294967295;
                            _prefixlen := 32 |} |}).
  - vm_compute. reflexivity.
  - reflexivity.
Defined.

(** X13: [summarize] also takes an address with no '/': it is treated as
    a /32, with the same record as for the address followed by "/32". *)
Theorem bare_address_is_host_route addr a :
  _ip_int_from_string addr = Ok a ->
  ipcalc.summarize addr = Ok (subnet_summary a 32) /\
  ipcalc.summarize (addr ++ "/32") = Ok (subnet_summary a 32).
Proof.
  intros Ha.
  pose proof (ip_int_from_string_range _ _ Ha) as Hr.
  pose proof (ip_int_from_string_dotted _ _ Ha) as Hd.
  destruct (dotted_plain a Hr) as (Hslash & _). rewrite Hd in Hslash.
  split.
  - rewrite summarize_eq.
    assert (Hs : _split_addr_prefix addr = Ok (addr, MaskInt _max_prefixlen)).
    { unfold _split_addr_prefix, _split_optional_netmask.
      rewrite (split_no_sep "/" addr Hslash). reflexivity. }
    unfold IPv4Interface_str. rewrite Hs. cbn [bind].
    unfold IPv4Address_str. rewrite Hslash, Ha. cbn [bind].
    unfold IPv4Network_pair, IPv4Address_str. rewrite Hslash, Ha. cbn [bind].
    replace (_make_netmask (MaskInt _max_prefixlen))
      with (Ok (E:=kind) (4294967295, 32)) by (vm_compute; reflexivity).
    cbn [bind]. rewrite (land_all_ones a Hr), Z.eqb_refl. reflexivity.
  - change (addr ++ "/32") with (addr ++ "/" ++ str_int 32).
    rewrite summarize_eq, (interface_of_cidr addr 32 a Hslash Ha) by lia.
    reflexivity.
Qed.

Lemma bare_address_is_host_route_witness :
  ipcalc.summarize "10.1.2.3" = ipcalc.summarize "10.1.2.3/32".
Proof.
  destruct (bare_address_is_host_route "10.1.2.3" 167838211) as [H1 H2].
  - vm_compute. reflexivity.
  - change ("10.1.2.3" ++ "/32") with "10.1.2.3/32" in H2. congruence.
Defined.

(** X14: for a /0 the summary does not depend on the address, except for
    [input_ip]: network 0.0.0.0, broadcast 255.255.255.255, netmask
    0.0.0.0, wildcard 255.255.255.255, 4294967296 addresses of which
    4294967294 are usable, from 0.0.0.1 to 255.255.255.254. *)
Theorem default_route_summary target iface :
  IPv4Interface_str target = Ok iface ->
  prefixlen (network iface) = 0 ->
  exists r,
    ipcalc.summarize target = Ok r /\
    ipcalc.network_address r = "0.0.0.0" /\
    ipcalc.broadcast r = "255.255.255.255" /\
    ipcalc.netmask r = "0.0.0.0" /\
    ipcalc.wildcard r = "255.255.255.255" /\
    ipcalc.total_addresses r = 4294967296 /\
    ipcalc.num_usable r = 4294967294 /\
    ipcalc.first_usable r = "0.0.0.1" /\
    ipcalc.last_usable r = "255.255.255.254" /\
    ipcalc.gateway_suggestion r = "0.0.0.1".
Proof.
  intros Hparse Hp0. unfold prefixlen in Hp0.
  pose proof (IPv4Interface_well_formed _ _ Hparse) as Hwf.
  destruct (subnet_summary_network iface Hwf) as (Hnet & Hnms & Hbc & Hw).
  destruct (subnet_summary_usable iface Hwf ltac:(lia))
    as (Hnum & Hfirst & Hlast & Hgw).
  pose proof Hwf as (Ha & Hp & Hnm & Hna).
  rewrite Hp0 in Hnm. change (_ip_int_from_prefix 0) with 0 in Hnm.
  rewrite Hnm, Z.land_0_r in Hna.
  rewrite Hna in Hnet, Hbc, Hfirst, Hlast, Hgw.
  rewrite Hnm in Hnms, Hbc, Hw, Hlast.
  exists (subnet_summary (_ip iface) (_prefixlen (network iface))).
  split; [apply summarize_of_interface; assumption|].
  split; [exact Hnet|]. split; [exact Hbc|].
  split; [exact Hnms|]. split; [exact Hw|].
  split; [rewrite Hp0; reflexivity|].
  split; [rewrite Hnum, Hp0; reflexivity|].
  split; [exact Hfirst|]. split; [exact Hlast | exact Hgw].
Qed.

Lemma default_route_summary_witness :
  exists r,
    ipcalc.summarize "10.1.2.3/0" = Ok r /\
    ipcalc.network_address r = "0.0.0.0" /\
    ipcalc.broadcast r = "255.255.255.255" /\
    ipcalc.netmask r = "0.0.0.0" /\
    ipcalc.wildcard r = "255.255.255.255" /\
    ipcalc.total_addresses r = 4294967296 /\
    ipcalc.num_usable r = 4294967294 /\
    ipcalc.first_usable r = "0.0.0.1" /\
    ipcalc.last_usable r = "255.255.255.254" /\
    ipcalc.gateway_suggestion r = "0.0.0.1".
Proof.
  apply (default_route_summary "10.1.2.3/0" iface_0).
  - vm_compute. reflexivity.
  - reflexivity.
Defined.

(** X15: for a /31 the block has two addresses; they are reported as the
    network address and the broadcast address, the input address is one of
    the two, and neither counts as usable. *)
Theorem point_to_point_pair target iface :
  IPv4Interface_str target = Ok iface ->
  prefixlen (network iface) = 31 ->
  let net := ipaddress.network_address (network iface) in
  exists r,
    ipcalc.summarize target = Ok r /\
    ipcalc.total_addresses r = 2 /\
    ipcalc.network_address r = dotted net /\
    ipcalc.broadcast r = dotted (net + 1) /\
    (ipcalc.input_ip r = ipcalc.network_address r \/
     ipcalc.input_ip r = ipcalc.broadcast r) /\
    ipcalc.num_usable r = 0.
Proof.
  intros Hparse Hp31 net. unfold prefixlen in Hp31.
  pose proof (IPv4Interface_well_formed _ _ Hparse) as Hwf.
  destruct (subnet_summary_network iface Hwf) as (Hnet & _ & Hbc & _).
  pose proof (blk_net iface Hwf) as Hn.
  pose proof (blk_bcast iface Hwf) as Hb.
  rewrite Hp31 in Hn, Hb. change (2 ^ (32 - 31)) with 2 in Hn, Hb.
  fold net in Hn, Hb, Hnet, Hbc.
  rewrite Hb in Hbc.
  replace (net + 2 - 1) with (net + 1) in Hbc by lia.
  exists (subnet_summary (_ip iface) (_prefixlen (network iface))).
  split; [apply summarize_of_interface; assumption|].
  split; [rewrite Hp31; reflexivity|].
  split; [exact Hnet|]. split; [exact Hbc|].
  split; [|rewrite Hp31; reflexivity].
  rewrite Hnet, Hbc.
  change (ipcalc.input_ip (subnet_summary (_ip iface)
                             (_prefixlen (network iface))))
    with (dotted (_ip iface)).
  pose proof (Z.mod_pos_bound (_ip iface) 2 ltac:(lia)) as Hm.
  assert (Hc : _ip iface = net \/ _ip iface = net + 1) by lia.
  destruct Hc as [->| ->]; [left | right]; reflexivity.
Qed.

Lemma point_to_point_pair_witness :
  exists r,
    ipcalc.summarize "192.168.1.1/31" = Ok r /\
    ipcalc.total_addresses r = 2 /\
    ipcalc.network_address r = dotted 3232235776 /\
    ipcalc.broadcast r = dotted (3232235776 + 1) /\
    (ipcalc.input_ip r = ipcalc.network_address r \/
     ipcalc.input_ip r = ipcalc.broadcast r) /\
    ipcalc.num_usable r = 0.
Proof.
  apply (point_to_point_pair "192.168.1.1/31" iface_31).
  - vm_compute. reflexivity.
  - reflexivity.
Defined.

(** X16: a target that [parse_input] returns always holds a '/': the
    script never hands a bare address to [summarize]. *)
Theorem parse_input_target_has_slash argv target :
  ipcalc.parse_input argv = Ok target -> contains "/" target = true.
Proof.
  destruct argv as [|a0 [|a1 [|a2 rest]]]; [discriminate| | |discriminate].
  - unfold ipcalc.parse_input.
    destruct (contains "/" (strip a0)) eqn:Hc; [|discriminate].
    intros H. congruence.
  - rewrite parse_input_two.
    destruct (startswith "/" (strip a1)) eqn:Hs.
    + intros H. assert (Ht : target = strip a0 ++ strip a1) by congruence.
      subst target. rewrite contains_app.
      destruct (strip a1) as [|c r]; [discriminate Hs|].
      cbn [startswith] in Hs. cbn [contains]. rewrite Hs.
      apply orb_true_r.
    + destruct (normalize_mask (strip a1)) as [q|k]; [|discriminate].
      intros H.
      assert (Ht : target = strip a0 ++ "/" ++ str_int q) by congruence.
      subst target. rewrite contains_app.
      cbn [append contains Ascii.eqb Bool.eqb orb]. apply orb_true_r.
Qed.

Lemma parse_input_target_has_slash_witness :
  ipcalc.parse_input ["10.0.0.2"; "255.255.255.252"] = Ok "10.0.0.2/30" /\
  contains "/" "10.0.0.2/30" = true.
Proof.
  assert (H : ipcalc.parse_input ["10.0.0.2"; "255.255.255.252"]
              = Ok "10.0.0.2/30") by (vm_compute; reflexivity).
  split; [exact H|].
  apply (parse_input_target_has_slash ["10.0.0.2"; "255.255.255.252"]).
  exact H.
Defined.

End Subnets.

(** ** The report *)

Lemma substring_all s : substring 0 (String.length s) s = s.
Proof.
  induction s as [|c r IH]; cbn [String.length substring]; [reflexivity|].
  rewrite IH. reflexivity.
Qed.

Lemma length_append x y :
  String.length (x ++ y) = (String.length x + String.length y)%nat.
Proof.
  induction x as [|c r IH]; cbn [append String.length]; [reflexivity|].
  rewrite IH. reflexivity.
Qed.

(** What follows a label in a line is the value. *)
Lemma substring_after_label label v :
  substring (String.length label)
    (String.length (label ++ v) - String.length label) (label ++ v) = v.
Proof.
  rewrite length_append.
  replace (String.length label + String.length v - String.length label)%nat
    with (String.length v) by lia.
  induction label as [|c r IH]; cbn [append String.length substring].
  - apply substring_all.
  - exact IH.
Qed.

(** X17: the report has ten lines; each starts with a label of 20
    characters, so the values are aligned, and what follows the labels is,
    in this order: the input address, the network address with the prefix,
    the netmask, the wildcard, the broadcast address, the total, the
    number of usable hosts, the first host, the last host and the
    gateway. *)
Theorem report_columns d :
  map (fun line => substring 20 (String.length line - 20) line)
    (ipcalc.pretty_print d)
  = [ ipcalc.input_ip d;
      ipcalc.network_address d ++ " " ++ ipcalc.prefix d;
      ipcalc.netmask d;
      ipcalc.wildcard d;
      ipcalc.broadcast d;
      str_int (ipcalc.total_addresses d);
      str_int (ipcalc.num_usable d);
      ipcalc.first_usable d;
      ipcalc.last_usable d;
      ipcalc.gateway_suggestion d ] /\
  Forall (fun line => (20 <= String.length line)%nat) (ipcalc.pretty_print d).
Proof.
  unfold ipcalc.pretty_print. split.
  - cbn [map].
    repeat match goal with
           | |- context [substring 20 (String.length (?l ++ ?v) - 20) (?l ++ ?v)] =>
               change (substring 20 (String.length (l ++ v) - 20) (l ++ v))
                 with (substring (String.length l)
                         (String.length (l ++ v) - String.length l) (l ++ v));
               rewrite (substring_after_label l v)
           end.
    reflexivity.
  - repeat (apply Forall_cons;
            [ rewrite length_append;
              match goal with
              | |- (20 <= String.length ?l + _)%nat =>
                  change (String.length l) with 20%nat; lia
              end | ]).
    apply Forall_nil.
Qed.

(** ** The texts that [summarize] accepts *)

Section Accepted.

Import ipaddress.

Lemma valid_octet_range s : valid_octet s = true -> 0 <= int_digits 0 s <= 255.
Proof.
  unfold valid_octet. intros H.
  apply andb_true_iff in H as [H H4]. apply andb_true_iff in H as [H H3].
  apply andb_true_iff in H as [H1 H2].
  split; [|lia].
  apply int_digits_nonneg; [apply isascii_isdigit_all; exact H1 | lia].
Qed.

(** [_parse_octet] accepts the valid octets and gives their value. *)
Lemma parse_octet_valid s :
  _parse_octet s
  = if valid_octet s then Ok (int_digits 0 s) else Raise ValueError.
Proof.
  unfold _parse_octet, valid_octet, int_str, int_max_str_digits.
  destruct (String.eqb_spec s "") as [->|Hne]; [reflexivity|].
  destruct (isascii_isdigit s); cbn [negb andb]; [|reflexivity].
  destruct (Z.ltb_spec 3 (Z.of_nat (String.length s))) as [H3|H3];
    destruct (Z.leb_spec (Z.of_nat (String.length s)) 3) as [H3'|H3'];
    try lia; cbn [andb]; [reflexivity|].
  destruct (s =? "0")%string, (startswith "0" s); cbn [negb andb orb];
    try reflexivity;
    (destruct (Z.ltb_spec 4300 (Z.of_nat (String.length s))); [lia|];
     cbn [bind];
     destruct (Z.ltb_spec 255 (int_digits 0 s)),
       (Z.leb_spec (int_digits 0 s) 255); try lia; reflexivity).
Qed.

(** [_ip_int_from_string] accepts the dotted quads of four valid octets. *)
Lemma ip_int_from_string_quad s :
  _ip_int_from_string s
  = match quad_value s with
    | Some v => Ok v
    | None => Raise AddressValueError
    end.
Proof.
  unfold _ip_int_from_string, quad_value.
  destruct (String.eqb_spec s "") as [->|Hne]; [reflexivity|].
  destruct (split "." s) as [|o1 [|o2 [|o3 [|o4 [|o5 r]]]]]; try reflexivity.
  - change (negb (Z.of_nat (List.length [o1; o2; o3; o4]) =? 4)) with false.
    cbn [mapM]. rewrite !parse_octet_valid.
    destruct (valid_octet o1) eqn:V1; [|reflexivity].
    destruct (valid_octet o2) eqn:V2; [|reflexivity].
    destruct (valid_octet o3) eqn:V3; [|reflexivity].
    destruct (valid_octet o4) eqn:V4; [|reflexivity].
    cbn [bind try_except andb].
    rewrite from_bytes4 by (apply valid_octet_range; assumption).
    reflexivity.
  - destruct (Z.eqb_spec (Z.of_nat (List.length (o1 :: o2 :: o3 :: o4 :: o5 :: r))) 4)
      as [He|_]; [cbn [List.length] in He; lia | reflexivity].
Qed.

Lemma quad_value_range s v : quad_value s = Some v -> 0 <= v < 2 ^ 32.
Proof.
  intros H. apply (ip_int_from_string_range s).
  rewrite ip_int_from_string_quad, H. reflexivity.
Qed.

Lemma quad_value_dotted s v : quad_value s = Some v -> dotted v = s.
Proof.
  intros H. apply ip_int_from_string_dotted.
  rewrite ip_int_from_string_quad, H. reflexivity.
Qed.

(** [_prefix_from_prefix_string] accepts the valid decimal prefix lengths. *)
Lemma prefix_from_prefix_string_valid m :
  _prefix_from_prefix_string m
  = if valid_prefix m then Ok (int_digits 0 m) else Raise NetmaskValueError.
Proof.
  unfold _prefix_from_prefix_string, valid_prefix, _report_invalid_netmask,
    int_str, _max_prefixlen.
  destruct (isascii_isdigit m) eqn:Hd; cbn [negb andb]; [|reflexivity].
  destruct (Z.ltb_spec int_max_str_digits (Z.of_nat (String.length m)));
    destruct (Z.leb_spec (Z.of_nat (String.length m)) int_max_str_digits);
    try lia; cbn [try_except is_ValueError bind andb]; [reflexivity|].
  pose proof (int_digits_nonneg m 0 (isascii_isdigit_all m Hd) ltac:(lia)).
  destruct (Z.leb_spec 0 (int_digits 0 m)); [|lia].
  destruct (Z.leb_spec (int_digits 0 m) 32); reflexivity.
Qed.

Lemma find_unique (f : Z -> bool) l p :
  In p l -> f p = true ->
  (forall n, In n l -> f n = true -> n = p) ->
  find f l = Some p.
Proof.
  intros Hin Hp Hu. destruct (find f l) as [x|] eqn:Hf.
  - apply find_some in Hf as [Hx Hfx]. f_equal. apply Hu; assumption.
  - pose proof (find_none _ _ Hf p Hin). congruence.
Qed.

Lemma find_absent (f : Z -> bool) l :
  (forall n, In n l -> f n = false) -> find f l = None.
Proof.
  intros H. destruct (find f l) as [x|] eqn:Hf; [|reflexivity].
  apply find_some in Hf as [Hx Hfx]. rewrite (H _ Hx) in Hfx. discriminate.
Qed.

Lemma in_prefix_lengths n : In n prefix_lengths <-> 0 <= n <= 32.
Proof.
  unfold prefix_lengths. rewrite in_map_iff. split.
  - intros (i & <- & Hi). apply in_seq in Hi. lia.
  - intros Hn. exists (Z.to_nat n). split; [lia|]. apply in_seq. lia.
Qed.

Lemma ones_then_zeros_inj n m :
  0 <= n <= 32 -> 0 <= m <= 32 ->
  ones_then_zeros n = ones_then_zeros m -> n = m.
Proof.
  unfold ones_then_zeros. intros Hn Hm H.
  assert (He : 2 ^ (32 - n) = 2 ^ (32 - m)) by lia.
  apply Z.pow_inj_r in He; lia.
Qed.

Lemma zeros_then_ones_inj n m :
  0 <= n <= 32 -> 0 <= m <= 32 ->
  zeros_then_ones n = zeros_then_ones m -> n = m.
Proof.
  unfold zeros_then_ones. intros Hn Hm H.
  assert (He : 2 ^ (32 - n) = 2 ^ (32 - m)) by lia.
  apply Z.pow_inj_r in He; lia.
Qed.

Lemma hostmask_pattern_inv n :
  0 <= n <= 32 -> Z.lxor (zeros_then_ones n) _ALL_ONES = ones_then_zeros n.
Proof.
  intros Hn. rewrite <- (hostmask_pattern n Hn). apply lxor_ones_involutive.
Qed.

(** The two tries of the library on a mask value, netmask first and then
    hostmask, find the prefix length of its bit pattern. *)
Lemma pattern_prefix_spec v :
  0 <= v < 2 ^ 32 ->
  pattern_prefix v
  = match _prefix_from_ip_int v with
    | Ok p => Some p
    | Raise _ =>
        match _prefix_from_ip_int (Z.lxor v _ALL_ONES) with
        | Ok p => Some p
        | Raise _ => None
        end
    end.
Proof.
  intros Hv. unfold pattern_prefix.
  destruct (_prefix_from_ip_int v) as [p|k] eqn:H1.
  - apply (prefix_from_ip_int_sound v p Hv) in H1 as [Hp Heq].
    rewrite (find_unique _ _ p); [reflexivity | | |].
    + apply in_prefix_lengths. exact Hp.
    + apply Z.eqb_eq. exact Heq.
    + intros n Hn Hf. apply in_prefix_lengths in Hn. apply Z.eqb_eq in Hf.
      apply ones_then_zeros_inj; congruence.
  - rewrite find_absent.
    2:{ intros n Hn. apply in_prefix_lengths in Hn. apply Z.eqb_neq.
        intros Heq. subst v.
        rewrite (prefix_from_ip_int_complete n Hn) in H1. discriminate H1. }
    destruct (_prefix_from_ip_int (Z.lxor v _ALL_ONES)) as [p|k'] eqn:H2.
    + apply (prefix_from_ip_int_sound _ p (lxor_ones_range v Hv)) in H2
        as [Hp Heq].
      assert (Hvp : v = zeros_then_ones p).
      { rewrite <- (hostmask_pattern p Hp), <- Heq.
        symmetry. apply lxor_ones_involutive. }
      apply find_unique.
      * apply in_prefix_lengths. exact Hp.
      * apply Z.eqb_eq. exact Hvp.
      * intros n Hn Hf. apply in_prefix_lengths in Hn. apply Z.eqb_eq in Hf.
        apply zeros_then_ones_inj; congruence.
    + apply find_absent. intros n Hn. apply in_prefix_lengths in Hn.
      apply Z.eqb_neq. intros Heq. subst v.
      rewrite (hostmask_pattern_inv n Hn) in H2.
      rewrite (prefix_from_ip_int_complete n Hn) in H2. discriminate H2.
Qed.

Lemma pattern_prefix_range v p : pattern_prefix v = Some p -> 0 <= p <= 32.
Proof.
  unfold pattern_prefix.
  destruct (find (fun n => v =? ones_then_zeros n) prefix_lengths) as [n|] eqn:H1.
  - intros H. assert (n = p) by congruence. subst n.
    apply find_some in H1 as [Hin _]. apply in_prefix_lengths. exact Hin.
  - intros H2. apply find_some in H2 as [Hin _].
    apply in_prefix_lengths. exact Hin.
Qed.

Lemma mask_prefix_range m p : mask_prefix m = Some p -> 0 <= p <= 32.
Proof.
  unfold mask_prefix. destruct (valid_prefix m) eqn:Hvp.
  - intros H. assert (Hp : int_digits 0 m = p) by congruence. subst p.
    unfold valid_prefix in Hvp.
    apply andb_true_iff in Hvp as [Hvp H3].
    apply andb_true_iff in Hvp as [H1 H2].
    split; [|lia].
    apply int_digits_nonneg; [apply isascii_isdigit_all; exact H1 | lia].
  - destruct (quad_value m) as [v|]; [|discriminate].
    apply pattern_prefix_range.
Qed.

(** [_make_netmask] on a text accepts what [mask_prefix] names. *)
Lemma make_netmask_str m :
  _make_netmask (MaskStr m)
  = match mask_prefix m with
    | Some p => Ok (_ip_int_from_prefix p, p)
    | None => Raise NetmaskValueError
    end.
Proof.
  pose proof (mask_prefix_range m) as Hr.
  unfold _make_netmask. rewrite prefix_from_prefix_string_valid.
  unfold mask_prefix in *.
  destruct (valid_prefix m).
  - cbn [try_except bind].
    rewrite IPv4Address_int_Ok
      by (apply ip_int_from_prefix_range, Hr; reflexivity).
    reflexivity.
  - cbn [try_except is_NetmaskValueError].
    unfold _prefix_from_ip_string, _report_invalid_netmask.
    rewrite ip_int_from_string_quad.
    destruct (quad_value m) as [v|] eqn:Hq;
      cbn [try_except is_AddressValueError bind]; [|reflexivity].
    pose proof (quad_value_range m v Hq) as Hv.
    rewrite (pattern_prefix_spec v Hv) in *.
    destruct (_prefix_from_ip_int v) as [p|k] eqn:H1.
    + cbn [bind].
      rewrite IPv4Address_int_Ok
        by (apply ip_int_from_prefix_range, Hr; reflexivity).
      reflexivity.
    + rewrite (prefix_from_ip_int_raises v k Hv H1). cbn [is_ValueError].
      destruct (_prefix_from_ip_int (Z.lxor v _ALL_ONES)) as [p|k'] eqn:H2.
      * cbn [try_except bind].
        rewrite IPv4Address_int_Ok
          by (apply ip_int_from_prefix_range, Hr; reflexivity).
        reflexivity.
      * rewrite (prefix_from_ip_int_raises _ k' (lxor_ones_range v Hv) H2).
        reflexivity.
Qed.

Lemma split_pieces sep s :
  Forall (fun x => contains sep x = false) (split sep s).
Proof.
  induction s as [|c r IH]; cbn [split].
  - constructor; [reflexivity | constructor].
  - destruct (Ascii.eqb c sep) eqn:Hc.
    + constructor; [reflexivity | exact IH].
    + destruct (split sep r) as [|h t].
      * constructor; [cbn [contains]; rewrite Hc; reflexivity | constructor].
      * inversion IH as [|? ? Hh Ht]; subst.
        constructor; [cbn [contains]; rewrite Hc, Hh; reflexivity | exact Ht].
Qed.

(** The constructor of the interface, after the text is split. *)
Lemma interface_tail addr m a nm p :
  contains "/" addr = false -> quad_value addr = Some a ->
  _make_netmask m = Ok (nm, p) ->
  (ip0 <- IPv4Address_str addr ;;
   network0 <- IPv4Network_pair addr m false ;;
   Ok {| _ip := ip0; network := network0 |})
  = Ok {| _ip := a;
          network := {| ipaddress.network_address := Z.land a nm;
                        netmask := nm;
                        _prefixlen := p |} |}.
Proof.
  intros Hslash Hq Hmask.
  pose proof (quad_value_range addr a Hq) as Hr.
  destruct (make_netmask_inv _ _ _ Hmask) as [Hp Hnm].
  unfold IPv4Network_pair, IPv4Address_str.
  rewrite Hslash, ip_int_from_string_quad, Hq. cbn [bind].
  rewrite Hmask. cbn [bind].
  destruct (Z.eqb_spec (Z.land a nm) a) as [He|Hne]; cbn [negb].
  - cbn [bind]. rewrite He. reflexivity.
  - rewrite IPv4Address_int_Ok; [reflexivity|].
    rewrite Hnm, (land_netmask a p Hr Hp).
    assert (Hk : 0 < 2 ^ (32 - p)) by (apply Z.pow_pos_nonneg; lia).
    pose proof (block_start_bound a _ (proj1 Hr) Hk). lia.
Qed.

Lemma interface_tail_bad_address addr m :
  contains "/" addr = false -> quad_value addr = None ->
  (ip0 <- IPv4Address_str addr ;;
   network0 <- IPv4Network_pair addr m false ;;
   Ok {| _ip := ip0; network := network0 |})
  = Raise AddressValueError.
Proof.
  intros Hslash Hq. unfold IPv4Address_str.
  rewrite Hslash, ip_int_from_string_quad, Hq. reflexivity.
Qed.

Lemma interface_tail_bad_mask addr m a k :
  contains "/" addr = false -> quad_value addr = Some a ->
  _make_netmask m = Raise k ->
  (ip0 <- IPv4Address_str addr ;;
   network0 <- IPv4Network_pair addr m false ;;
   Ok {| _ip := ip0; network := network0 |})
  = Raise k.
Proof.
  intros Hslash Hq Hmask. unfold IPv4Network_pair, IPv4Address_str.
  rewrite Hslash, ip_int_from_string_quad, Hq. cbn [bind].
  rewrite Hmask. reflexivity.
Qed.

(** [IPv4Interface] accepts exactly the texts that [interface_of] gives a
    meaning to, with that address and that prefix length. *)
Lemma interface_str_of target :
  match interface_of target with
  | Some (a, p) =>
      IPv4Interface_str target
      = Ok {| _ip := a;
              network := {| ipaddress.network_address
                              := Z.land a (_ip_int_from_prefix p);
                            netmask := _ip_int_from_prefix p;
                            _prefixlen := p |} |}
  | None => exists k, IPv4Interface_str target = Raise k
  end.
Proof.
  unfold interface_of, IPv4Interface_str, _split_addr_prefix,
    _split_optional_netmask.
  pose proof (split_pieces "/" target) as Hpieces.
  destruct (split "/" target) as [|addr [|m [|x rest]]].
  - cbn. eauto.
  - inversion Hpieces as [|? ? Hslash _]; subst.
    change (2 <? Z.of_nat (List.length [addr])) with false. cbn [bind].
    destruct (quad_value addr) as [a|] eqn:Hq.
    + apply (interface_tail addr (MaskInt _max_prefixlen) a
               (_ip_int_from_prefix 32) 32 Hslash Hq).
      vm_compute. reflexivity.
    + exists AddressValueError.
      apply interface_tail_bad_address; assumption.
  - inversion Hpieces as [|? ? Hslash _]; subst.
    change (2 <? Z.of_nat (List.length [addr; m])) with false. cbn [bind].
    destruct (quad_value addr) as [a|] eqn:Hq.
    + pose proof (make_netmask_str m) as Hm.
      destruct (mask_prefix m) as [p|].
      * apply (interface_tail addr (MaskStr m) a _ p Hslash Hq Hm).
      * exists NetmaskValueError.
        apply (interface_tail_bad_mask addr (MaskStr m) a _ Hslash Hq Hm).
    + exists AddressValueError.
      apply interface_tail_bad_address; assumption.
  - exists AddressValueError.
    destruct (Z.ltb_spec 2 (Z.of_nat (List.length (addr :: m :: x :: rest))))
      as [_|Hle]; [reflexivity | cbn [List.length] in Hle; lia].
Qed.

(** C9, as stated, fails: [summarize] returns a record for the text
    ["10.1.2.3"], which has no prefix or mask part, and for the text
    ["10.0.0.1/0.0.0.255"], whose mask part has the value 255, not of the
    form 1^n 0^(32-n). *)
Lemma texts_outside_the_claim_accepted :
  contains "/" "10.1.2.3" = false /\
  ipcalc.summarize "10.1.2.3" = Ok (subnet_summary 167838211 32) /\
  quad_value "0.0.0.255" = Some 255 /\
  (forall n, 0 <= n <= 32 -> 255 <> ones_then_zeros n) /\
  ipcalc.summarize "10.0.0.1/0.0.0.255" = Ok (subnet_summary 167772161 24).
Proof.
  split; [reflexivity|].
  split.
  { rewrite summarize_eq.
    replace (IPv4Interface_str "10.1.2.3")
      with (Ok (E:=kind)
              {| _ip := 167838211;
                 network := {| ipaddress.network_address := 167838211;
                               netmask := 4294967295;
                               _prefixlen := 32 |} |})
      by (vm_compute; reflexivity).
    reflexivity. }
  split; [vm_compute; reflexivity|].
  split.
  { intros n Hn Heq.
    assert (H : negb (255 =? ones_then_zeros n) = true).
    { apply (forall_below (fun n => negb (255 =? ones_then_zeros n)) 33);
        [vm_compute; reflexivity | lia]. }
    apply negb_true_iff, Z.eqb_neq in H. contradiction. }
  rewrite summarize_eq.
  replace (IPv4Interface_str "10.0.0.1/0.0.0.255")
    with (Ok (E:=kind)
            {| _ip := 167772161;
               network := {| ipaddress.network_address := 167772160;
                             netmask := 4294967040;
                             _prefixlen := 24 |} |})
    by (vm_compute; reflexivity).
  reflexivity.
Qed.

(** C9, amended: [summarize] raises exactly on the texts that are not a
    valid interface specification, where a valid one is a dotted quad of
    four valid octets, alone (a /32) or followed by one '/' and a decimal
    prefix length in [0, 32] or a dotted quad with the value of a netmask
    (1^n 0^(32-n)) or of a hostmask (0^n 1^(32-n)).  The exception is the
    [ValueError] with the text ["Entrada inválida: "] followed by the
    argument, with no record.  On a valid text it returns the whole
    record of that address and prefix length, whose [input_ip] is the
    address text of the argument, unchanged. *)
Theorem summarize_fails_iff_invalid_text target :
  (forall e,
      ipcalc.summarize target = Raise e <->
      interface_of target = None /\
      e = Exn ValueError (u "Entrada inválida: " ++ target)) /\
  (forall r,
      ipcalc.summarize target = Ok r <->
      exists a p, interface_of target = Some (a, p) /\ r = subnet_summary a p) /\
  (forall r,
      ipcalc.summarize target = Ok r ->
      exists addr rest,
        split "/" target = addr :: rest /\ ipcalc.input_ip r = addr).
Proof.
  pose proof (interface_str_of target) as Hof.
  rewrite summarize_eq.
  destruct (interface_of target) as [[a p]|] eqn:Hi.
  - rewrite Hof. cbn [_ip network prefixlen _prefixlen].
    split; [|split].
    + intros e. split; [discriminate|]. intros [H _]. discriminate H.
    + intros r. split.
      * intros H. exists a, p. split; [reflexivity | congruence].
      * intros (a' & p' & H & ->). congruence.
    + intros r H.
      assert (Hr : r = subnet_summary a p) by congruence. subst r.
      unfold interface_of in Hi.
      destruct (split "/" target) as [|addr [|m [|x rest]]];
        try discriminate Hi.
      * destruct (quad_value addr) as [a'|] eqn:Hq; [|discriminate Hi].
        assert (a' = a) by congruence. subst a'.
        exists addr, []. split; [reflexivity|].
        apply (quad_value_dotted addr a Hq).
      * destruct (quad_value addr) as [a'|] eqn:Hq; [|discriminate Hi].
        destruct (mask_prefix m) as [p'|]; [|discriminate Hi].
        assert (a' = a) by congruence. subst a'.
        exists addr, [m]. split; [reflexivity|].
        apply (quad_value_dotted addr a Hq).
  - destruct Hof as [k ->].
    split; [|split].
    + intros e. split.
      * intros H. split; [reflexivity | congruence].
      * intros [_ ->]. reflexivity.
    + intros r. split; [discriminate|].
      intros (a & p & H & _). discriminate H.
    + intros r H. discriminate H.
Qed.

Lemma summarize_fails_iff_invalid_text_witness :
  interface_of "10.0.0.1/255.0.255.0" = None /\
  ipcalc.summarize "10.0.0.1/255.0.255.0"
  = Raise (Exn ValueError (u "Entrada inválida: " ++ "10.0.0.1/255.0.255.0")) /\
  interface_of "10.0.0.1/33" = None /\
  ipcalc.summarize "10.0.0.1/33"
  = Raise (Exn ValueError (u "Entrada inválida: " ++ "10.0.0.1/33")) /\
  interface_of "192.168.1.10/24" = Some (3232235786, 24) /\
  exists r, ipcalc.summarize "192.168.1.10/24" = Ok r /\
            ipcalc.input_ip r = "192.168.1.10".
Proof.
  assert (H1 : interface_of "10.0.0.1/255.0.255.0" = None)
    by (vm_compute; reflexivity).
  assert (H2 : interface_of "10.0.0.1/33" = None) by (vm_compute; reflexivity).
  assert (H3 : interface_of "192.168.1.10/24" = Some (3232235786, 24))
    by (vm_compute; reflexivity).
  split; [exact H1|]. split.
  { apply (proj1 (summarize_fails_iff_invalid_text "10.0.0.1/255.0.255.0")).
    split; [exact H1 | reflexivity]. }
  split; [exact H2|]. split.
  { apply (proj1 (summarize_fails_iff_invalid_text "10.0.0.1/33")).
    split; [exact H2 | reflexivity]. }
  split; [exact H3|].
  exists (subnet_summary 3232235786 24).
  assert (H : ipcalc.summarize "192.168.1.10/24"
              = Ok (subnet_summary 3232235786 24)).
  { apply (proj1 (proj2 (summarize_fails_iff_invalid_text "192.168.1.10/24"))).
    exists 3232235786, 24. split; [exact H3 | reflexivity]. }
  split; [exact H|].
  destruct (proj2 (proj2 (summarize_fails_iff_invalid_text "192.168.1.10/24"))
              _ H) as (addr & rest & Hs & Hip).
  rewrite Hip.
  assert (Hs' : split "/" "192.168.1.10/24" = ["192.168.1.10"; "24"])
    by (vm_compute; reflexivity).
  congruence.
Defined.

End Accepted.
